(** * static-webserver: the request-to-response pipeline of [bin/server.js]

    A shallow embedding of the [StaticServer] class and of [mime.lookup],
    followed by the properties of the range calculator, the freshness
    evaluator, the content transfer engine and the path router.

    Conventions of the embedding.
    - A JavaScript string is a [string] (header values and request targets
      reach the handlers as Latin-1 text).
    - A JavaScript number that holds a byte offset is [Num z] with [z : Z],
      or [NaN]; every comparison with [NaN] is false.  The integers stay
      exact as long as they are below 2^53, which file sizes and offsets are.
    - An object used as a dictionary ([req.headers], the headers of the
      response) is a [gmap string string]; a missing key is [undefined].
    - A method that may throw returns a [Result]; the handlers return an
      [Outcome] that keeps the state of the response at the throw.
    - Callbacks of [fs.stat] and [fs.readdir] are run in place: one request is
      followed from its arrival to the end of its response, against one
      snapshot of the file system. *)

From Stdlib Require Import ZArith String Ascii List Bool Lia.
From stdpp Require Import base option gmap strings pretty.
Import ListNotations.

Open Scope Z_scope.

(** ** JavaScript primitives *)

Module JS.

(** [number]: the values that [parseInt] and the arithmetic on byte
    offsets produce. *)
Inductive number : Type :=
| NaN
| Num (z : Z).

Definition isNaN (x : number) : bool :=
  match x with NaN => true | Num _ => false end.

(** [a > b] *)
Definition gt (a b : number) : bool :=
  match a, b with
  | Num x, Num y => y <? x
  | _, _ => false
  end.

(** [a - b] *)
Definition sub (a b : number) : number :=
  match a, b with
  | Num x, Num y => Num (x - y)
  | _, _ => NaN
  end.

(** [`${x}`] for a number, in full decimal (the engine changes to the
    exponent form from 1e21 on). *)
Definition num_toString (x : number) : string :=
  match x with
  | NaN => "NaN"
  | Num z => pretty z
  end.

(** Truthiness of [obj[key]] when the values are strings: [undefined] and
    the empty string are falsy. *)
Definition truthy (v : option string) : bool :=
  match v with
  | Some (String _ _) => true
  | _ => false
  end.

(** [a !== b] on values that are strings or [undefined]. *)
Definition strict_ne (a b : option string) : bool :=
  match a, b with
  | Some x, Some y => negb (String.eqb x y)
  | None, None => false
  | _, _ => true
  end.

Definition is_digit (c : ascii) : bool :=
  let n := nat_of_ascii c in (48 <=? n)%nat && (n <=? 57)%nat.

Definition digit_val (c : ascii) : Z := Z.of_nat (nat_of_ascii c) - 48.

(** [[0-9A-Za-z_]], the class [\w]. *)
Definition is_word (c : ascii) : bool :=
  let n := nat_of_ascii c in
  is_digit c
  || ((65 <=? n)%nat && (n <=? 90)%nat)
  || ((97 <=? n)%nat && (n <=? 122)%nat)
  || (n =? 95)%nat.

(** The longest prefix of decimal digits, and what follows it: a greedy
    run of [[0-9]]. *)
Fixpoint span_digits (s : string) : string * string :=
  match s with
  | String c t =>
      if is_digit c
      then let (d, r) := span_digits t in (String c d, r)
      else (EmptyString, s)
  | EmptyString => (EmptyString, EmptyString)
  end.

Fixpoint decimal_acc (acc : Z) (s : string) : Z :=
  match s with
  | String c t => decimal_acc (10 * acc + digit_val c) t
  | EmptyString => acc
  end.

(** [parseInt(s)] on the text captured by a group of decimal digits: the
    leading digits in base ten, [NaN] when there is none.  (White space, a sign
    and a [0x] prefix, which [parseInt] also reads, cannot occur in such a
    group; the value is the exact integer, which is what the double holds
    below 2^53.) *)
Definition parseInt (s : string) : number :=
  match fst (span_digits s) with
  | EmptyString => NaN
  | d => Num (decimal_acc 0 d)
  end.

(** [s] without the prefix [p], when it starts with it. *)
Fixpoint strip_prefix (p s : string) : option string :=
  match p, s with
  | EmptyString, _ => Some s
  | String a p', String b s' =>
      if Ascii.eqb a b then strip_prefix p' s' else None
  | String _ _, EmptyString => None
  end.

(** [s.indexOf(needle)]: the first offset at which [needle] occurs, or -1. *)
Fixpoint indexOf_from (i : Z) (needle s : string) : Z :=
  match strip_prefix needle s with
  | Some _ => i
  | None =>
      match s with
      | String _ t => indexOf_from (i + 1) needle t
      | EmptyString => -1
      end
  end.

Definition indexOf (s needle : string) : Z := indexOf_from 0 needle s.

(** [s.substring(i)] for [0 <= i]. *)
Fixpoint drop (n : nat) (s : string) : string :=
  match n, s with
  | S k, String _ t => drop k t
  | _, _ => s
  end.

Definition substring_from (s : string) (i : Z) : string :=
  drop (Z.to_nat i) s.

(** [s[s.length - 1]], [undefined] on the empty string. *)
Fixpoint last_char (s : string) : option ascii :=
  match s with
  | EmptyString => None
  | String c EmptyString => Some c
  | String _ t => last_char t
  end.

Definition head_char (s : string) : option ascii :=
  match s with
  | String c _ => Some c
  | EmptyString => None
  end.

(** The assertion [\b] between two neighbouring positions: exactly one of
    them holds a word character (the ends of the text hold none). *)
Definition wordb (c : option ascii) : bool :=
  match c with Some a => is_word a | None => false end.

Definition boundary (l r : option ascii) : bool := xorb (wordb l) (wordb r).

(** [\bw\b] tried at one position: [prev] is the character before it. *)
Definition word_here (w : string) (prev : option ascii) (s : string) : bool :=
  match strip_prefix w s with
  | Some rest =>
      boundary prev (head_char s)
      && boundary (match last_char w with Some c => Some c | None => prev end)
                  (head_char rest)
  | None => false
  end.

(** [/\b(w1|w2|...)\b/] searched from left to right: does it match? *)
Fixpoint words_search (ws : list string) (prev : option ascii) (s : string)
  : bool :=
  existsb (fun w => word_here w prev s) ws
  || match s with
     | String c t => words_search ws (Some c) t
     | EmptyString => false
     end.

(** [s.match(/\b(w1|w2|...)\b/)] is not [null]. *)
Definition matches_words (ws : list string) (s : string) : bool :=
  words_search ws None s.

End JS.

Export JS.

(** ** The platform: Node's [path], [url], [Date] and [fs] *)

(** What the server asks of Node's library, as an interface.  [url_pathname u]
    is [url.parse(u).pathname], [None] standing for [null] (a target with an
    empty path); [toUTCString t] is [new Date(t).toUTCString()] for [t] in
    milliseconds. *)
Class NodeLib : Type := {
  path_join : string -> string -> string;
  path_normalize : string -> string;
  path_extname : string -> string;
  url_pathname : string -> option string;
  toUTCString : Z -> string
}.

(** The error object that a failed file-system call hands over. *)
Inductive SysError : Type :=
| ErrnoException (code : string).

Inductive Exn : Type :=
| TypeError
| SysThrown (e : SysError).

(** The result of a call that may throw. *)
Inductive Result (A : Type) : Type :=
| Ok (a : A)
| Throw (e : Exn).

Arguments Ok {A} a.
Arguments Throw {A} e.

#[global] Instance Result_ret : MRet Result := @Ok.

#[global] Instance Result_bind : MBind Result :=
  fun A B (k : A -> Result B) (r : Result A) =>
    match r with
    | Ok a => k a
    | Throw e => Throw e
    end.

(** [fs.Stats]: [size] in bytes, [mtime] as [mtime.getTime()]. *)
Module Stats.
Record t : Type := {
  size : Z;
  mtime : Z;
  isDirectory : bool
}.
End Stats.

(** The file system and the clock, as one request sees them.  [stat] and
    [readdir] give the [err] or the value their callback receives. *)
Record World : Type := {
  fs_stat : string -> SysError + Stats.t;
  fs_existsSync : string -> bool;
  fs_readdir : string -> SysError + list string;
  Date_now : Z
}.

(** [fs.statSync] throws where [fs.stat] reports an error. *)
Definition fs_statSync (w : World) (p : string) : Result Stats.t :=
  match fs_stat w p with
  | inr st => Ok st
  | inl e => Throw (SysThrown e)
  end.

(** ** Requests, streams and responses *)

Record Request : Type := {
  url : string;
  headers : gmap string string
}.

(** [{ start, end }] *)
Record Range : Type := {
  start_ : number;
  end_ : number
}.

(** A readable stream, by the way it was built:
    [fs.createReadStream(path)], [fs.createReadStream(path, {start, end})],
    [s.pipe(zlib.createGzip())], [s.pipe(zlib.createDeflate())]. *)
Inductive Stream : Type :=
| FileStream (path : string) (range : option Range)
| Gzip (s : Stream)
| Deflate (s : Stream).

Inductive Chunk : Type :=
| Text (s : string)
| ErrorObject (e : SysError).

(** What has been done with the body of a response: nothing yet,
    [res.end()] or [res.end(chunk)], or [stream.pipe(res)]. *)
Inductive Body : Type :=
| Untouched
| Ended (chunk : option Chunk)
| Piped (s : Stream).

(** [http.ServerResponse]: [_headers] maps the lower-cased names to the
    values, as [res._headers] shows them. *)
Record Response : Type := {
  statusCode : Z;
  _headers : gmap string string;
  body : Body
}.

(** The response object a request handler receives. *)
Definition newResponse : Response :=
  {| statusCode := 200; _headers := ∅; body := Untouched |}.

Definition toLowerCase_char (c : ascii) : ascii :=
  let n := nat_of_ascii c in
  if (65 <=? n)%nat && (n <=? 90)%nat then ascii_of_nat (n + 32) else c.

Fixpoint toLowerCase (s : string) : string :=
  match s with
  | String c t => String (toLowerCase_char c) (toLowerCase t)
  | EmptyString => EmptyString
  end.

Definition setStatus (code : Z) (res : Response) : Response :=
  {| statusCode := code; _headers := _headers res; body := body res |}.

Definition setHeader (name value : string) (res : Response) : Response :=
  {| statusCode := statusCode res;
     _headers := <[toLowerCase name := value]> (_headers res);
     body := body res |}.

Definition writeHead (code : Z) (hs : list (string * string)) (res : Response)
  : Response :=
  fold_left (fun r h => setHeader (fst h) (snd h) r) hs (setStatus code res).

Definition end_with (chunk : option Chunk) (res : Response) : Response :=
  {| statusCode := statusCode res; _headers := _headers res;
     body := Ended chunk |}.

Definition pipe (s : Stream) (res : Response) : Response :=
  {| statusCode := statusCode res; _headers := _headers res;
     body := Piped s |}.

(** How the handling of one request ends: the response as the handler left
    it, or an exception that escaped the handler with the response as it stood
    then. *)
Inductive Outcome : Type :=
| Done (res : Response)
| Thrown (e : Exn) (res : Response).

Definition response_of (o : Outcome) : Response :=
  match o with Done r => r | Thrown _ r => r end.

(** ** [mime.js] *)

Module mime.

Definition mimeTypes : list (string * string) :=
  [ ("css", "text/css"); ("gif", "image/gif"); ("html", "text/html");
    ("ico", "image/x-icon"); ("jpeg", "image/jpeg"); ("png", "image/png");
    ("jpg", "image/jpg"); ("txt", "text/plain");
    ("json", "application/json"); ("js", "text/javascript") ].

(** [mimeTypes[key]] on the keys the table itself holds (the members that a
    plain object inherits, such as [constructor], are left out). *)
Fixpoint get (key : string) (table : list (string * string)) : option string :=
  match table with
  | (k, v) :: rest => if String.eqb k key then Some v else get key rest
  | [] => None
  end.

(** [ext.split('.').pop()]: what follows the last dot, or all of [ext]. *)
Fixpoint split_pop (acc ext : string) : string :=
  match ext with
  | String c t =>
      if Ascii.eqb c "." then split_pop EmptyString t
      else split_pop (acc +:+ String c EmptyString) t
  | EmptyString => acc
  end.

Definition lookup `{NodeLib} (pathName : string) : string :=
  let ext := path_extname pathName in
  let ext := split_pop EmptyString ext in
  match get ext mimeTypes with
  | Some ty => ty
  | None => default "text/plain" (get "txt" mimeTypes)
  end.

End mime.

(** ** [bin/server.js] *)

Definition hasTrailingSlash (url : string) : bool :=
  match last_char url with
  | Some c => Ascii.eqb c "/"
  | None => false
  end.

(** The object [this] after the constructor has run.  [zipMatch s] says
    whether the pattern built from [config.zipMatch] matches [s]; the
    configuration file is not part of the sources, so the pattern is a field
    like the others. *)
Record StaticServer : Type := {
  port : Z;
  root : string;
  indexPage : string;
  enableCacheControl : bool;
  enableExpires : bool;
  enableETag : bool;
  enableLastModified : bool;
  maxAge : Z;
  zipMatch : string -> bool
}.

(** The pattern of [getRange], the text [bytes=], a group of any number of
    digits, a dash and a second such group, tried at the start of [s]: the two
    groups.  Each run of digits is greedy, and giving back a digit never helps,
    since the character that must follow is not a digit. *)
Definition range_regex_here (s : string) : option (string * string) :=
  match strip_prefix "bytes=" s with
  | Some r =>
      let (g1, r1) := span_digits r in
      match r1 with
      | String c r2 =>
          if Ascii.eqb c "-" then Some (g1, fst (span_digits r2)) else None
      | EmptyString => None
      end
  | None => None
  end.

(** [rangeText.match] on that pattern: the groups of the leftmost match,
    [None] for [null]. *)
Fixpoint range_regex_match (s : string) : option (string * string) :=
  match range_regex_here s with
  | Some g => Some g
  | None =>
      match s with
      | String _ t => range_regex_match t
      | EmptyString => None
      end
  end.

Definition getRange (rangeText : string) (totalSize : Z) : Result Range :=
  match range_regex_match rangeText with
  | None => Throw TypeError
  | Some (g1, g2) =>
      let start := parseInt g1 in
      let end' := parseInt g2 in
      if isNaN start && negb (isNaN end') then
        Ok {| start_ := sub (Num totalSize) end'; end_ := Num (totalSize - 1) |}
      else if negb (isNaN start) && isNaN end' then
        Ok {| start_ := start; end_ := Num (totalSize - 1) |}
      else
        Ok {| start_ := start; end_ := end' |}
  end.

(** The value [rangeHandler] returns ([None] for [null]) and the response as
    it leaves it.  The stream stands for the call of [fs.createReadStream]
    with the bounds it was given; whether the platform accepts them (it
    refuses a [NaN] or a negative one) is not part of it. *)
Definition rangeHandler (pathName rangeText : string) (totalSize : Z)
  (res : Response) : Result (option Stream * Response) :=
  range ← getRange rangeText totalSize;
  if gt (start_ range) (end_ range)
     || gt (start_ range) (Num totalSize)
     || gt (end_ range) (Num totalSize)
  then
    let res := setStatus 416 res in
    let res := setHeader "Content-Range" ("bytes */" +:+ pretty totalSize) res in
    let res := end_with None res in
    Ok (None, res)
  else
    let res := setStatus 206 res in
    let res :=
      setHeader "Content-Range"
        ("bytes " +:+ num_toString (start_ range) +:+ "-"
         +:+ num_toString (end_ range) +:+ "/" +:+ pretty totalSize) res in
    Ok (Some (FileStream pathName (Some range)), res).

(** [/\b(gzip|deflate)\b/], [/\bgzip\b/] and [/\bdeflate\b/] *)
Definition re_gzip_or_deflate : string -> bool := matches_words ["gzip"; "deflate"].
Definition re_gzip : string -> bool := matches_words ["gzip"].
Definition re_deflate : string -> bool := matches_words ["deflate"].

(** The stream [compressHandler] returns ([None] when it falls off its last
    [else if] and returns [undefined]) and the response as it leaves it. *)
Definition compressHandler (readStream : Stream) (req : Request)
  (res : Response) : option Stream * Response :=
  match headers req !! "accept-encoding" with
  | Some (String _ _ as acceptEncoding) =>
      if negb (re_gzip_or_deflate acceptEncoding) then (Some readStream, res)
      else if re_gzip acceptEncoding then
        (Some (Gzip readStream), setHeader "Content-Encoding" "gzip" res)
      else if re_deflate acceptEncoding then
        (Some (Deflate readStream), setHeader "Content-Encoding" "deflate" res)
      else (None, res)
  | _ => (Some readStream, res)
  end.

Definition hex_digit (d : Z) : ascii :=
  ascii_of_nat (Z.to_nat (if d <? 10 then 48 + d else 87 + d)).

Fixpoint hex_go (fuel : nat) (n : Z) (acc : string) : string :=
  match fuel with
  | O => acc
  | S f =>
      let acc := String (hex_digit (n mod 16)) acc in
      if n / 16 =? 0 then acc else hex_go f (n / 16) acc
  end.

(** [n.toString(16)] for an integer. *)
Definition toString16 (n : Z) : string :=
  if n <? 0
  then "-" +:+ hex_go (S (Z.to_nat (Z.log2 (- n)))) (- n) EmptyString
  else hex_go (S (Z.to_nat (Z.log2 n))) n EmptyString.

Definition dquote : string := String (ascii_of_nat 34) EmptyString.

Definition generateETag (stat : Stats.t) : string :=
  let mtime := toString16 (Stats.mtime stat) in
  let size := pretty (Stats.size stat) in
  "W/" +:+ dquote +:+ size +:+ "-" +:+ mtime +:+ dquote.

Definition isFresh (reqHeaders resHeaders : gmap string string) : bool :=
  let noneMatch := reqHeaders !! "if-none-match" in
  let lastModified := reqHeaders !! "if-modified-since" in
  if negb (truthy noneMatch) && negb (truthy lastModified) then false
  else if truthy noneMatch && strict_ne noneMatch (resHeaders !! "etag")
  then false
  else if truthy lastModified
          && strict_ne lastModified (resHeaders !! "last-modified")
  then false
  else true.

Definition respondNotModified (res : Response) : Response :=
  end_with None (setStatus 304 res).

(** [res.end(err)] is recorded with the object it was handed; what the
    platform does with a chunk that is no text is not part of it. *)
Definition respondError (err : SysError) (res : Response) : Response :=
  end_with (Some (ErrorObject err)) (writeHead 500 [] res).

Definition respondNotFound (req : Request) (res : Response) : Response :=
  let res := writeHead 400 [("Content-Type", "text/html")] res in
  end_with
    (Some (Text ("<h1>Not Found</h1><p>The requested URL " +:+ url req
                 +:+ " was not found on this server.</p>")))
    res.

Definition respondRedirect (req : Request) (res : Response) : Response :=
  let location := url req +:+ "/" in
  let res :=
    writeHead 301 [("Location", location); ("Content-type", "text/html")] res in
  end_with
    (Some (Text ("Redirecting to <a href='" +:+ location +:+ "'>" +:+ location
                 +:+ "</a>")))
    res.

Section StaticServer.

Context `{NodeLib}.
Variable this : StaticServer.
Variable world : World.

Definition shouldCompress (pathName : string) : bool :=
  zipMatch this (path_extname pathName).

(** [stat] is [None] when the caller passes [null]; reading [stat.size] then
    throws before [rangeHandler] is entered. *)
Definition respondFile (stat : option Stats.t) (pathName : string)
  (req : Request) (res : Response) : Outcome :=
  let res := setHeader "Content-Type" (mime.lookup pathName) res in
  let res := setHeader "Accept-Ranges" "bytes" res in
  let opened : Result (option Stream * Response) :=
    match headers req !! "range" with
    | Some (String _ _ as rangeText) =>
        match stat with
        | Some st => rangeHandler pathName rangeText (Stats.size st) res
        | None => Throw TypeError
        end
    | _ => Ok (Some (FileStream pathName None), res)
    end in
  match opened with
  | Throw e => Thrown e res
  | Ok (None, res) => Done res
  | Ok (Some readStream, res) =>
      let (readStream, res) :=
        if shouldCompress pathName
        then compressHandler readStream req res
        else (Some readStream, res) in
      match readStream with
      | Some readStream => Done (pipe readStream res)
      | None => Thrown TypeError res
      end
  end.

Definition setFreshHeaders (stat : Stats.t) (res : Response) : Response :=
  let lastModified := toUTCString (Stats.mtime stat) in
  let res :=
    if enableLastModified this
    then setHeader "Last-Modified" lastModified res else res in
  let res :=
    if enableCacheControl this
    then setHeader "Cache-Control"
           ("public, max-age=" +:+ pretty (maxAge this)) res
    else res in
  let res :=
    if enableETag this then setHeader "ETag" (generateETag stat) res else res in
  if enableExpires this then
    let expireTime := toUTCString (Date_now world + maxAge this * 1000) in
    setHeader "Expires" expireTime res
  else res.

Definition respond (pathName : string) (req : Request) (res : Response)
  : Outcome :=
  match fs_stat world pathName with
  | inr stat =>
      let res := setFreshHeaders stat res in
      if isFresh (headers req) (_headers res)
      then Done (respondNotModified res)
      else respondFile (Some stat) pathName req res
  | inl err => Done (respondError err res)
  end.

(** One turn of the [files.forEach] loop of [respondDirectory]: the listing
    with the line of [file] added.  [path.join] throws on a [null] request
    path, [fs.statSync] on an entry it cannot stat. *)
Definition listEntry (pathName : string) (requestPath : option string)
  (content file : string) : Result string :=
  match requestPath with
  | None => Throw TypeError
  | Some requestPath =>
      let filePath := path_join requestPath file in
      stat ← fs_statSync world (path_join pathName file);
      let (filePath, file) :=
        if Stats.isDirectory stat
        then (path_join filePath "/", path_join file "/")
        else (filePath, file) in
      Ok (content +:+ "<p><a href='" +:+ filePath +:+ "'>" +:+ file
          +:+ "</a></a></p>")
  end.

Fixpoint listEntries (pathName : string) (requestPath : option string)
  (content : string) (files : list string) : Result string :=
  match files with
  | [] => Ok content
  | file :: rest =>
      content ← listEntry pathName requestPath content file;
      listEntries pathName requestPath content rest
  end.

Definition respondDirectory (pathName : string) (req : Request)
  (res : Response) : Outcome :=
  let indexPagePath := path_join pathName (indexPage this) in
  if fs_existsSync world indexPagePath then respond indexPagePath req res
  else
    match fs_readdir world pathName with
    | inr files =>
        let requestPath := url_pathname (url req) in
        let content :=
          "<h1>Index of " +:+ default "null" requestPath +:+ ":</h1>" in
        match listEntries pathName requestPath content files with
        | Ok content =>
            let res := writeHead 200 [("Content-Type", "text/html")] res in
            Done (end_with (Some (Text content)) res)
        | Throw e => Thrown e res
        end
    | inl err => Done (end_with (Some (ErrorObject err)) (writeHead 500 [] res))
    end.

(** The test that opens [routeHandler]: the path holds [article/] or
    [homepage]. *)
Definition isFallbackPath (pathName : string) : bool :=
  (0 <=? indexOf pathName "article/") || (0 <=? indexOf pathName "homepage").

Definition routeHandler (pathName : string) (req : Request) (res : Response)
  : Outcome :=
  if isFallbackPath pathName then
    respondFile None (path_join (root this) (indexPage this)) req res
  else
    match fs_stat world pathName with
    | inr stat =>
        match url_pathname (url req) with
        | Some requestedPath =>
            if hasTrailingSlash requestedPath && Stats.isDirectory stat then
              respondDirectory pathName req res
            else if Stats.isDirectory stat then
              Done (respondRedirect req res)
            else
              respond pathName req res
        | None => Thrown TypeError res
        end
    | inl _ => Done (respondNotFound req res)
    end.

(** The rewrite that opens the request listener of [start]: a URL that holds
    [static] at an offset above zero is cut to start there. *)
Definition rewriteUrl (req : Request) : Request :=
  if 0 <? indexOf (url req) "static"
  then {| url := substring_from (url req) (indexOf (url req) "static");
          headers := headers req |}
  else req.

(** The listener that [start] hands to [http.createServer], on one request
    and its new response. *)
Definition start (req : Request) : Outcome :=
  let req := rewriteUrl req in
  let pathName := path_join (root this) (path_normalize (url req)) in
  routeHandler pathName req newResponse.

End StaticServer.

(** ** Node's library on a POSIX host

    An instance of the interface for the worked examples: [path.join],
    [path.normalize] and [path.extname] of [path.posix], the pathname that
    [url.parse] gives for a target without scheme or host, and
    [Date.prototype.toUTCString] for the years 0 to 9999. *)

Module Posix.

(** [s.split(sep)] for a one-character separator. *)
Fixpoint split (sep : ascii) (cur s : string) : list string :=
  match s with
  | String c t =>
      if Ascii.eqb c sep then cur :: split sep EmptyString t
      else split sep (cur +:+ String c EmptyString) t
  | EmptyString => [cur]
  end.

(** The segments of a path with [.] and empty segments dropped and [..]
    resolved; [stack] holds the segments kept so far, last one first. *)
Fixpoint resolve (absolute : bool) (stack segs : list string) : list string :=
  match segs with
  | [] => rev stack
  | seg :: rest =>
      if String.eqb seg EmptyString || String.eqb seg "." then
        resolve absolute stack rest
      else if String.eqb seg ".." then
        match stack with
        | top :: below =>
            if String.eqb top ".." then resolve absolute (seg :: stack) rest
            else resolve absolute below rest
        | [] =>
            if absolute then resolve absolute stack rest
            else resolve absolute (seg :: stack) rest
        end
      else resolve absolute (seg :: stack) rest
  end.

Fixpoint join_with (sep : string) (l : list string) : string :=
  match l with
  | [] => EmptyString
  | [x] => x
  | x :: rest => x +:+ sep +:+ join_with sep rest
  end.

Definition normalize (p : string) : string :=
  match p with
  | EmptyString => "."
  | _ =>
      let absolute := bool_decide (head_char p = Some "/"%char) in
      let trailing := bool_decide (last_char p = Some "/"%char) in
      let body := join_with "/" (resolve absolute [] (split "/" EmptyString p)) in
      let body :=
        match body with
        | EmptyString => if absolute then EmptyString else "."
        | _ => body
        end in
      let body :=
        if trailing && negb (String.eqb body EmptyString)
        then body +:+ "/" else body in
      if absolute then "/" +:+ body else body
  end.

Definition join (a b : string) : string :=
  match a, b with
  | EmptyString, EmptyString => "."
  | EmptyString, _ => normalize b
  | _, EmptyString => normalize a
  | _, _ => normalize (a +:+ "/" +:+ b)
  end.

(** The extension of a file name: from its last dot on, unless that dot
    opens the name or there is none. *)
Fixpoint ext_of (first : bool) (found : option string) (name : string)
  : string :=
  match name with
  | String c t =>
      if Ascii.eqb c "." && negb first
      then ext_of false (Some name) t
      else ext_of false found t
  | EmptyString => default EmptyString found
  end.

Definition extname (p : string) : string :=
  let segs := filter (fun s => negb (String.eqb s EmptyString))
                (split "/" EmptyString p) in
  match last segs with
  | Some name => if String.eqb name ".." then EmptyString
                 else ext_of true None name
  | None => EmptyString
  end.

(** What stands before the first [?] or [#]. *)
Fixpoint before_query (s : string) : string :=
  match s with
  | String c t =>
      if Ascii.eqb c "?" || Ascii.eqb c "#" then EmptyString
      else String c (before_query t)
  | EmptyString => EmptyString
  end.

Definition pathname (u : string) : option string :=
  match before_query u with
  | EmptyString => None
  | p => Some p
  end.

Definition nth_name (names : list string) (i : Z) : string :=
  default EmptyString (names !! Z.to_nat i).

Definition pad (width : nat) (n : Z) : string :=
  let s := pretty n in
  String.concat EmptyString (repeat "0" (width - String.length s)) +:+ s.

(** The civil date of a day number counted from 1 January 1970. *)
Definition civil (days : Z) : Z * Z * Z :=
  let z := days + 719468 in
  let era := z / 146097 in
  let doe := z - era * 146097 in
  let yoe := (doe - doe / 1460 + doe / 36524 - doe / 146096) / 365 in
  let doy := doe - (365 * yoe + yoe / 4 - yoe / 100) in
  let mp := (5 * doy + 2) / 153 in
  let d := doy - (153 * mp + 2) / 5 + 1 in
  let m := if mp <? 10 then mp + 3 else mp - 9 in
  let y := yoe + era * 400 + (if m <=? 2 then 1 else 0) in
  (y, m, d).

Definition utcString (t : Z) : string :=
  let days := t / 86400000 in
  let ms := t mod 86400000 in
  let '(y, m, d) := civil days in
  nth_name ["Sun"; "Mon"; "Tue"; "Wed"; "Thu"; "Fri"; "Sat"] ((days + 4) mod 7)
  +:+ ", " +:+ pad 2 d +:+ " "
  +:+ nth_name ["Jan"; "Feb"; "Mar"; "Apr"; "May"; "Jun"; "Jul"; "Aug"; "Sep";
                "Oct"; "Nov"; "Dec"] (m - 1)
  +:+ " " +:+ pad 4 y +:+ " " +:+ pad 2 (ms / 3600000) +:+ ":"
  +:+ pad 2 (ms / 60000 mod 60) +:+ ":" +:+ pad 2 (ms / 1000 mod 60) +:+ " GMT".

Definition lib : NodeLib := {|
  path_join := join;
  path_normalize := normalize;
  path_extname := extname;
  url_pathname := pathname;
  toUTCString := utcString
|}.

End Posix.

#[global] Existing Instance Posix.lib.

(** ** Vocabulary of the statements *)

(** [s] is a run of decimal digits. *)
Fixpoint all_digits (s : string) : bool :=
  match s with
  | String c t => is_digit c && all_digits t
  | EmptyString => true
  end.

(** The number a run of decimal digits denotes. *)
Definition decimal (s : string) : Z := decimal_acc 0 s.

(** A header that is there with a value that is not empty: what the tests
    [if (req.headers[name])] of the handlers take for a header. *)
Definition sent (hs : gmap string string) (name : string) : Prop :=
  exists v, hs !! name = Some v /\ v <> EmptyString.

(** [Accept-Encoding] names the coding [tok] as a word of its own. *)
Definition offers (tok : string) (req : Request) : bool :=
  match headers req !! "accept-encoding" with
  | Some acceptEncoding => matches_words [tok] acceptEncoding
  | None => false
  end.

(** The server with compression switched off: no extension matches. *)
Definition uncompressed (this : StaticServer) : StaticServer :=
  {| port := port this; root := root this; indexPage := indexPage this;
     enableCacheControl := enableCacheControl this;
     enableExpires := enableExpires this; enableETag := enableETag this;
     enableLastModified := enableLastModified this; maxAge := maxAge this;
     zipMatch := fun _ => false |}.

(** [needle] occurs in [s]. *)
Definition contains (s needle : string) : Prop :=
  exists pre post, s = pre +:+ needle +:+ post.

(** The test that guards the two branches of [rangeHandler]. *)
Definition unsatisfiable (range : Range) (totalSize : Z) : bool :=
  gt (start_ range) (end_ range)
  || gt (start_ range) (Num totalSize)
  || gt (end_ range) (Num totalSize).

(** Freshness as the specification words it, a header counting as present
    as soon as the request holds it, whatever its value: one of the two
    validators is present, and each one present equals its counterpart of the
    response. *)
Definition fresh_as_worded (reqHeaders resHeaders : gmap string string) : Prop :=
  (is_Some (reqHeaders !! "if-none-match")
   \/ is_Some (reqHeaders !! "if-modified-since"))
  /\ (is_Some (reqHeaders !! "if-none-match") ->
      reqHeaders !! "if-none-match" = resHeaders !! "etag")
  /\ (is_Some (reqHeaders !! "if-modified-since") ->
      reqHeaders !! "if-modified-since" = resHeaders !! "last-modified").

(** The file a stream reads, and the part of it, under its encoders. *)
Fixpoint source_of (s : Stream) : string * option Range :=
  match s with
  | FileStream path range => (path, range)
  | Gzip s | Deflate s => source_of s
  end.

(** A server and a file system for the worked examples: the root [/www]
    holds the files [index.html] and [app.js] and the directories [docs] and
    [static]. *)
Definition exampleServer : StaticServer :=
  {| port := 8080; root := "/www"; indexPage := "index.html";
     enableCacheControl := true; enableExpires := true; enableETag := true;
     enableLastModified := true; maxAge := 3600;
     zipMatch := fun ext =>
       bool_decide (ext = ".css" \/ ext = ".js" \/ ext = ".html") |}.

Definition exampleFile : Stats.t :=
  {| Stats.size := 1024; Stats.mtime := 1530403200000;
     Stats.isDirectory := false |}.

Definition exampleDirectory : Stats.t :=
  {| Stats.size := 4096; Stats.mtime := 1530403200000;
     Stats.isDirectory := true |}.

(** The path without the slash that may end it. *)
Fixpoint chomp (p : string) : string :=
  match p with
  | String c EmptyString => if Ascii.eqb c "/" then EmptyString else p
  | String c t => String c (chomp t)
  | EmptyString => EmptyString
  end.

Definition exampleStat (p : string) : SysError + Stats.t :=
  let p := chomp p in
  if bool_decide (p = "/www/index.html" \/ p = "/www/app.js")
  then inr exampleFile
  else if bool_decide (p = "/www" \/ p = "/www/docs" \/ p = "/www/static")
  then inr exampleDirectory
  else inl (ErrnoException "ENOENT").

Definition exampleWorld : World :=
  {| fs_stat := exampleStat;
     fs_existsSync := fun p =>
       match exampleStat p with inr _ => true | inl _ => false end;
     fs_readdir := fun p =>
       let p := chomp p in
       if bool_decide (p = "/www/docs" \/ p = "/www/static") then inr []
       else if bool_decide (p = "/www")
       then inr ["app.js"; "docs"; "index.html"; "static"]
       else inl (ErrnoException "ENOTDIR");
     Date_now := 1530453661000 |}.

Definition request (url : string) (headers : list (string * string)) : Request :=
  {| url := url; headers := list_to_map headers |}.

(** ** The range calculator *)

Section RangeCalculator.

Lemma span_digits_app (ds rest : string) :
  all_digits ds = true ->
  (match rest with String c _ => is_digit c | EmptyString => false end) = false ->
  span_digits (ds +:+ rest) = (ds, rest).
Proof.
  intros Hds Hrest. induction ds as [|c ds IH]; simpl in *.
  - destruct rest as [|c t]; [reflexivity|]. simpl. now rewrite Hrest.
  - apply andb_true_iff in Hds as [Hc Hds]. rewrite Hc, (IH Hds). reflexivity.
Qed.

Lemma span_digits_all (ds : string) :
  all_digits ds = true -> span_digits ds = (ds, EmptyString).
Proof.
  intros Hds. induction ds as [|c ds IH]; simpl in *; [reflexivity|].
  apply andb_true_iff in Hds as [Hc Hds]. now rewrite Hc, (IH Hds).
Qed.

Lemma parseInt_digits (ds : string) :
  all_digits ds = true -> ds <> EmptyString -> parseInt ds = Num (decimal ds).
Proof.
  intros Hds Hne. unfold parseInt. rewrite (span_digits_all ds Hds). simpl.
  destruct ds; [congruence | reflexivity].
Qed.

Lemma parseInt_empty : parseInt EmptyString = NaN.
Proof. reflexivity. Qed.

Lemma range_regex_match_here (s : string) (g : string * string) :
  range_regex_here s = Some g -> range_regex_match s = Some g.
Proof.
  intros Hg. destruct s as [|c t]; [vm_compute in Hg; discriminate|].
  change (range_regex_match (String c t))
    with (match range_regex_here (String c t) with
          | Some g => Some g
          | None => range_regex_match t
          end).
  now rewrite Hg.
Qed.

(** The pattern matches a suffix-form header at its first character. *)
Lemma range_regex_suffix_form (ds : string) :
  all_digits ds = true ->
  range_regex_match ("bytes=-" +:+ ds) = Some (EmptyString, ds).
Proof.
  intros Hds. apply range_regex_match_here. unfold range_regex_here.
  change (strip_prefix "bytes=" ("bytes=-" +:+ ds)) with (Some ("-" +:+ ds)).
  assert (E : span_digits ("-" +:+ ds) = (EmptyString, String "-" ds))
    by reflexivity.
  cbv iota beta. rewrite E. simpl.
  now rewrite (span_digits_all ds Hds).
Qed.

(** The pattern matches an open-ended header at its first character. *)
Lemma range_regex_open_form (ds : string) :
  all_digits ds = true ->
  range_regex_match ("bytes=" +:+ ds +:+ "-") = Some (ds, EmptyString).
Proof.
  intros Hds. apply range_regex_match_here. unfold range_regex_here.
  change (strip_prefix "bytes=" ("bytes=" +:+ ds +:+ "-"))
    with (Some (ds +:+ "-")).
  cbv iota beta. now rewrite (span_digits_app ds "-" Hds eq_refl).
Qed.

(** On exact integers: a suffix-form header [bytes=-n] resolves to the last
    [n] bytes, [start = size - n] and [end = size - 1], and an open-ended
    header [bytes=a-] resolves to [start = a] and [end = size - 1].  What the
    doubles of the engine make of it is [getRange_forms_below_2_53]. *)
Theorem getRange_suffix_and_open_forms (ds : string) (size : Z) :
  all_digits ds = true -> ds <> EmptyString ->
  getRange ("bytes=-" +:+ ds) size
    = Ok {| start_ := Num (size - decimal ds); end_ := Num (size - 1) |}
  /\ getRange ("bytes=" +:+ ds +:+ "-") size
    = Ok {| start_ := Num (decimal ds); end_ := Num (size - 1) |}.
Proof.
  intros Hds Hne. unfold getRange.
  rewrite (range_regex_suffix_form ds Hds), (range_regex_open_form ds Hds).
  rewrite (parseInt_digits ds Hds Hne), parseInt_empty. split; reflexivity.
Qed.

Lemma getRange_suffix_and_open_forms_witness :
  getRange "bytes=-3" 10 = Ok {| start_ := Num 7; end_ := Num 9 |}
  /\ getRange "bytes=3-" 10 = Ok {| start_ := Num 3; end_ := Num 9 |}.
Proof.
  apply (getRange_suffix_and_open_forms "3" 10); [reflexivity | discriminate].
Defined.

(** For [0 < n <= size] the suffix form names a range of the file. *)
Lemma suffix_range_valid (n size : Z) :
  0 < n <= size -> 0 <= size - n <= size - 1 /\ size - 1 < size.
Proof. lia. Qed.

Lemma rangeHandler_416 (pathName rangeText : string) (totalSize : Z)
  (res : Response) (range : Range) :
  getRange rangeText totalSize = Ok range ->
  unsatisfiable range totalSize = true ->
  rangeHandler pathName rangeText totalSize res
  = Ok (None,
        end_with None
          (setHeader "Content-Range" ("bytes */" +:+ pretty totalSize)
             (setStatus 416 res))).
Proof.
  intros Hr Hu. unfold rangeHandler. rewrite Hr. cbn.
  unfold unsatisfiable in Hu. now rewrite Hu.
Qed.

(** When [rangeHandler] returns [null] it has ended the response. *)
Lemma rangeHandler_null_ended (pathName rangeText : string) (totalSize : Z)
  (res res' : Response) :
  rangeHandler pathName rangeText totalSize res = Ok (None, res') ->
  body res' = Ended None.
Proof.
  unfold rangeHandler. destruct (getRange rangeText totalSize) as [range|e];
    cbn; [|discriminate].
  destruct (gt _ _ || gt _ _ || gt _ _); [|discriminate].
  now intros [= <-].
Qed.

(** What the test does guarantee of a range that is served: its bounds are
    ordered and neither lies above the size itself. *)
Lemma rangeHandler_206_bounds (pathName rangeText : string) (totalSize : Z)
  (res res' : Response) (stream : Stream) (a b : Z) :
  rangeHandler pathName rangeText totalSize res = Ok (Some stream, res') ->
  getRange rangeText totalSize = Ok {| start_ := Num a; end_ := Num b |} ->
  a <= b <= totalSize /\ statusCode res' = 206.
Proof.
  unfold rangeHandler. intros Hh Hr. rewrite Hr in Hh. cbn in Hh.
  destruct (b <? a) eqn:Hab; [discriminate|].
  destruct (totalSize <? a) eqn:Ha; [discriminate|].
  destruct (totalSize <? b) eqn:Hb; [discriminate|].
  cbn in Hh. injection Hh as _ <-. cbn. lia.
Qed.

(** C1. The test of [rangeHandler] compares the bounds with the size, not
    with the last offset: on a file of 10 bytes the header [bytes=0-10] is
    answered 206, and a stream over the offsets 0 to 10 is opened, although the
    end lies beyond [size - 1]. *)
Example rangeHandler_accepts_end_at_size :
  rangeHandler "/www/a.txt" "bytes=0-10" 10 newResponse
  = Ok (Some (FileStream "/www/a.txt"
                (Some {| start_ := Num 0; end_ := Num 10 |})),
        setHeader "Content-Range" "bytes 0-10/10" (setStatus 206 newResponse)).
Proof. vm_compute. reflexivity. Qed.

(** C3. A header whose two groups are both empty is not detected: [getRange]
    returns the pair of [NaN], no comparison of [rangeHandler] holds of it,
    and the 206 branch opens a stream over it.  A header that the pattern does
    not match at all makes [getRange] throw. *)
Example rangeHandler_malformed_range :
  getRange "bytes=-" 10 = Ok {| start_ := NaN; end_ := NaN |}
  /\ rangeHandler "/www/a.txt" "bytes=-" 10 newResponse
     = Ok (Some (FileStream "/www/a.txt"
                   (Some {| start_ := NaN; end_ := NaN |})),
           setHeader "Content-Range" "bytes NaN-NaN/10"
             (setStatus 206 newResponse))
  /\ getRange "items=0-5" 10 = Throw TypeError
  /\ rangeHandler "/www/a.txt" "items=0-5" 10 newResponse = Throw TypeError.
Proof. vm_compute. repeat split; reflexivity. Qed.

End RangeCalculator.

(** ** Headers of the response *)

Section Headers.

Lemma lookup_setHeader_eq (name value key : string) (res : Response) :
  toLowerCase name = key -> _headers (setHeader name value res) !! key = Some value.
Proof. intros <-. apply lookup_insert_eq. Qed.

Lemma lookup_setHeader_ne (name value key : string) (res : Response) :
  toLowerCase name <> key ->
  _headers (setHeader name value res) !! key = _headers res !! key.
Proof. intros Hne. now apply lookup_insert_ne. Qed.

Lemma statusCode_setHeader (name value : string) (res : Response) :
  statusCode (setHeader name value res) = statusCode res.
Proof. reflexivity. Qed.

Lemma body_setHeader (name value : string) (res : Response) :
  body (setHeader name value res) = body res.
Proof. reflexivity. Qed.

End Headers.

(** Settles that a header name, once lower-cased, is not the key looked up. *)
Ltac header_ne :=
  let E := fresh in
  intros E; vm_compute in E; first [discriminate E | congruence].

(** Looks a header up through the [setHeader] calls that cannot have set it. *)
Ltac skip_headers := repeat (rewrite lookup_setHeader_ne by header_ne).

(** ** The freshness evaluator *)

Section Freshness.

Lemma truthy_sent (hs : gmap string string) (name : string) :
  truthy (hs !! name) = true <-> sent hs name.
Proof.
  unfold sent. destruct (hs !! name) as [[|c t]|]; simpl; split;
    try discriminate; try (intros [v [Hv Hne]]; congruence).
  intros _. eexists. split; [reflexivity | discriminate].
Qed.

Lemma strict_ne_decide (a b : option string) :
  strict_ne a b = negb (bool_decide (a = b)).
Proof.
  destruct a as [x|], b as [y|]; simpl; try reflexivity.
  case_bool_decide as E; [injection E as ->; now rewrite String.eqb_refl|].
  destruct (String.eqb_spec x y); [congruence | reflexivity].
Qed.

(** C6, as the code has it.  [isFresh] answers true exactly when one of
    [If-None-Match] and [If-Modified-Since] is sent with a value that is not
    empty, and each of the two that is so sent is the same string as the
    [ETag], respectively the [Last-Modified], of the response.  The strings
    are compared as they are, not as dates. *)
Theorem isFresh_iff (reqHeaders resHeaders : gmap string string) :
  isFresh reqHeaders resHeaders = true <->
  (sent reqHeaders "if-none-match" \/ sent reqHeaders "if-modified-since")
  /\ (sent reqHeaders "if-none-match" ->
      resHeaders !! "etag" = reqHeaders !! "if-none-match")
  /\ (sent reqHeaders "if-modified-since" ->
      resHeaders !! "last-modified" = reqHeaders !! "if-modified-since").
Proof.
  unfold isFresh. rewrite <- !truthy_sent, !strict_ne_decide.
  destruct (truthy (reqHeaders !! "if-none-match")),
    (truthy (reqHeaders !! "if-modified-since"));
    repeat case_bool_decide; cbn; intuition (congruence || discriminate).
Qed.

(** C6, as it is worded.  An [If-None-Match] header with an empty value is
    present in the request and differs from the [ETag], yet [isFresh] takes it
    for absent and answers true on the strength of [If-Modified-Since]. *)
Lemma isFresh_empty_validator :
  isFresh
    (<["if-none-match" := EmptyString]>
       (<["if-modified-since" := "Sun, 01 Jul 2018 00:00:00 GMT"]> ∅))
    (<["etag" := "W/1024-16453239c00"]>
       (<["last-modified" := "Sun, 01 Jul 2018 00:00:00 GMT"]> ∅))
  = true
  /\ ~ fresh_as_worded
        (<["if-none-match" := EmptyString]>
           (<["if-modified-since" := "Sun, 01 Jul 2018 00:00:00 GMT"]> ∅))
        (<["etag" := "W/1024-16453239c00"]>
           (<["last-modified" := "Sun, 01 Jul 2018 00:00:00 GMT"]> ∅)).
Proof.
  split; [vm_compute; reflexivity|].
  intros (_ & Hetag & _).
  assert (Hp : is_Some ((<["if-none-match" := EmptyString]>
       (<["if-modified-since" := "Sun, 01 Jul 2018 00:00:00 GMT"]> ∅)
       : gmap string string) !! "if-none-match")) by (eexists; reflexivity).
  specialize (Hetag Hp). vm_compute in Hetag. discriminate Hetag.
Qed.

End Freshness.

(** ** The content transfer engine *)

Section Transfer.

Lemma words_search_either (a b : string) (prev : option ascii) (s : string) :
  words_search [a; b] prev s
  = words_search [a] prev s || words_search [b] prev s.
Proof.
  revert prev. induction s as [|c t IH]; intros prev; simpl.
  - now destruct (word_here a prev _), (word_here b prev _).
  - rewrite IH.
    now destruct (word_here a prev _), (word_here b prev _),
      (words_search [a] _ t), (words_search [b] _ t).
Qed.

Lemma re_gzip_or_deflate_either (s : string) :
  re_gzip_or_deflate s = re_gzip s || re_deflate s.
Proof. apply words_search_either. Qed.

(** [compressHandler] never runs off its last test: it picks gzip when it is
    offered, else deflate when it is offered, else hands the stream back. *)
Lemma compressHandler_negotiates (readStream : Stream) (req : Request)
  (res : Response) :
  compressHandler readStream req res
  = if offers "gzip" req then
      (Some (Gzip readStream), setHeader "Content-Encoding" "gzip" res)
    else if offers "deflate" req then
      (Some (Deflate readStream), setHeader "Content-Encoding" "deflate" res)
    else (Some readStream, res).
Proof.
  unfold compressHandler, offers.
  destruct (headers req !! "accept-encoding") as [[|c t]|]; try reflexivity.
  rewrite re_gzip_or_deflate_either.
  fold (re_gzip (String c t)). fold (re_deflate (String c t)).
  now destruct (re_gzip (String c t)), (re_deflate (String c t)).
Qed.

(** C9. For a file whose extension matches the pattern, compared with the
    same request served without compression: when that one pipes a stream,
    this one pipes it through gzip with [Content-Encoding: gzip] if gzip is
    offered (deflate offered or not), else through deflate with
    [Content-Encoding: deflate] if deflate is offered, else as it is; when that
    one ends without a stream (416) or throws, this one does the same.  The
    status code is the same in every case. *)
Theorem compression_negotiation `{NodeLib} (this : StaticServer)
  (stat : option Stats.t) (pathName : string) (req : Request) (res : Response) :
  shouldCompress this pathName = true ->
  match respondFile (uncompressed this) stat pathName req res with
  | Done plain =>
      match body plain with
      | Piped stream =>
          respondFile this stat pathName req res
          = Done
              (if offers "gzip" req then
                 pipe (Gzip stream) (setHeader "Content-Encoding" "gzip" plain)
               else if offers "deflate" req then
                 pipe (Deflate stream)
                   (setHeader "Content-Encoding" "deflate" plain)
               else plain)
      | _ => respondFile this stat pathName req res = Done plain
      end
  | Thrown e plain => respondFile this stat pathName req res = Thrown e plain
  end
  /\ statusCode (response_of (respondFile this stat pathName req res))
     = statusCode
         (response_of (respondFile (uncompressed this) stat pathName req res)).
Proof.
  intros Hzip. unfold respondFile. rewrite Hzip.
  change (shouldCompress (uncompressed this) pathName) with false.
  set (res0 := setHeader "Accept-Ranges" "bytes" _).
  assert (Hpiped : forall stream res1,
    match body (pipe stream res1) with
    | Piped stream0 =>
        (let (readStream, res2) := compressHandler stream req res1 in
         match readStream with
         | Some readStream => Done (pipe readStream res2)
         | None => Thrown TypeError res2
         end)
        = Done
            (if offers "gzip" req then
               pipe (Gzip stream0)
                 (setHeader "Content-Encoding" "gzip" (pipe stream res1))
             else if offers "deflate" req then
               pipe (Deflate stream0)
                 (setHeader "Content-Encoding" "deflate" (pipe stream res1))
             else pipe stream res1)
    | _ => False
    end).
  { intros stream res1. cbn. rewrite compressHandler_negotiates.
    now destruct (offers "gzip" req), (offers "deflate" req). }
  assert (Hstatus : forall stream res1,
    statusCode
      (response_of
         (let (readStream, res2) := compressHandler stream req res1 in
          match readStream with
          | Some readStream => Done (pipe readStream res2)
          | None => Thrown TypeError res2
          end))
    = statusCode res1).
  { intros stream res1. rewrite compressHandler_negotiates.
    now destruct (offers "gzip" req), (offers "deflate" req). }
  destruct (headers req !! "range") as [[|c rangeText]|];
    [split; [apply Hpiped | now rewrite Hstatus] | | split; [apply Hpiped | now rewrite Hstatus]].
  destruct stat as [st|]; [|split; reflexivity].
  destruct (rangeHandler pathName (String c rangeText) (Stats.size st) res0)
    as [[[stream|] res1]|e] eqn:Hrange;
    [split; [apply Hpiped | now rewrite Hstatus] | | split; reflexivity].
  rewrite (rangeHandler_null_ended _ _ _ _ _ Hrange). split; reflexivity.
Qed.

Lemma compression_negotiation_witness :
  match
    respondFile (uncompressed exampleServer) (Some exampleFile) "/www/app.js"
      (request "/app.js" [("accept-encoding", "gzip, deflate")]) newResponse
  with
  | Done plain =>
      match body plain with
      | Piped stream =>
          respondFile exampleServer (Some exampleFile) "/www/app.js"
            (request "/app.js" [("accept-encoding", "gzip, deflate")])
            newResponse
          = Done
              (if offers "gzip"
                    (request "/app.js" [("accept-encoding", "gzip, deflate")])
               then
                 pipe (Gzip stream) (setHeader "Content-Encoding" "gzip" plain)
               else if offers "deflate"
                         (request "/app.js"
                            [("accept-encoding", "gzip, deflate")])
               then
                 pipe (Deflate stream)
                   (setHeader "Content-Encoding" "deflate" plain)
               else plain)
      | _ =>
          respondFile exampleServer (Some exampleFile) "/www/app.js"
            (request "/app.js" [("accept-encoding", "gzip, deflate")])
            newResponse
          = Done plain
      end
  | Thrown e plain =>
      respondFile exampleServer (Some exampleFile) "/www/app.js"
        (request "/app.js" [("accept-encoding", "gzip, deflate")]) newResponse
      = Thrown e plain
  end
  /\ statusCode
       (response_of
          (respondFile exampleServer (Some exampleFile) "/www/app.js"
             (request "/app.js" [("accept-encoding", "gzip, deflate")])
             newResponse))
     = statusCode
         (response_of
            (respondFile (uncompressed exampleServer) (Some exampleFile)
               "/www/app.js"
               (request "/app.js" [("accept-encoding", "gzip, deflate")])
               newResponse)).
Proof.
  apply (compression_negotiation exampleServer (Some exampleFile) "/www/app.js"
           (request "/app.js" [("accept-encoding", "gzip, deflate")])
           newResponse).
  vm_compute. reflexivity.
Defined.

End Transfer.

(** ** The freshness and transfer flow *)

Section Respond.

(** [setFreshHeaders] writes the four cache headers and no other. *)
Lemma setFreshHeaders_frame `{NodeLib} (this : StaticServer) (world : World)
  (stat : Stats.t) (res : Response) (key : string) :
  key <> "last-modified" -> key <> "cache-control" -> key <> "etag" ->
  key <> "expires" ->
  _headers (setFreshHeaders this world stat res) !! key = _headers res !! key.
Proof.
  intros Hl Hc He Hx. unfold setFreshHeaders.
  destruct (enableLastModified this), (enableCacheControl this),
    (enableETag this), (enableExpires this);
    skip_headers; reflexivity.
Qed.

Lemma setFreshHeaders_status `{NodeLib} (this : StaticServer) (world : World)
  (stat : Stats.t) (res : Response) :
  statusCode (setFreshHeaders this world stat res) = statusCode res
  /\ body (setFreshHeaders this world stat res) = body res.
Proof.
  unfold setFreshHeaders.
  now destruct (enableLastModified this), (enableCacheControl this),
    (enableETag this), (enableExpires this).
Qed.

(** C7. On a file that stats, when the conditional headers of the request
    are fresh against the headers that [setFreshHeaders] has just written,
    [respond] answers 304 with an empty body; the headers of the answer are
    those that [setFreshHeaders] left, so no [Content-Type] has been set. *)
Theorem respond_fresh_is_304 `{NodeLib} (this : StaticServer) (world : World)
  (pathName : string) (req : Request) (res : Response) (stat : Stats.t) :
  fs_stat world pathName = inr stat ->
  isFresh (headers req) (_headers (setFreshHeaders this world stat res)) = true ->
  exists answer,
    respond this world pathName req res = Done answer
    /\ statusCode answer = 304
    /\ body answer = Ended None
    /\ _headers answer = _headers (setFreshHeaders this world stat res)
    /\ _headers answer !! "content-type" = _headers res !! "content-type".
Proof.
  intros Hstat Hfresh. unfold respond. rewrite Hstat, Hfresh.
  eexists. split; [reflexivity|]. repeat split.
  cbn. now apply setFreshHeaders_frame.
Qed.

Lemma respond_fresh_is_304_witness :
  exists answer,
    respond exampleServer exampleWorld "/www/app.js"
      (request "/app.js" [("if-none-match", generateETag exampleFile)])
      newResponse
    = Done answer
    /\ statusCode answer = 304
    /\ body answer = Ended None
    /\ _headers answer
       = _headers (setFreshHeaders exampleServer exampleWorld exampleFile
                     newResponse)
    /\ _headers answer !! "content-type" = _headers newResponse !! "content-type".
Proof.
  apply (respond_fresh_is_304 exampleServer exampleWorld "/www/app.js"
           (request "/app.js" [("if-none-match", generateETag exampleFile)])
           newResponse exampleFile); vm_compute; reflexivity.
Defined.

End Respond.

(** ** The path router *)

Section Router.

Lemma contains_middle (pre s post : string) : contains (pre +:+ s +:+ post) s.
Proof. now exists pre, post. Qed.

(** [routeHandler] answers a path outside the fallback that does not stat
    with status 400, [Content-Type: text/html] and an HTML text that holds the
    URL of the request it was handed, unescaped.  Under the listener that
    request is the rewritten one: see [start_not_found_is_400]. *)
Theorem not_found_is_400 `{NodeLib} (this : StaticServer) (world : World)
  (pathName : string) (req : Request) (res : Response) (err : SysError) :
  isFallbackPath pathName = false ->
  fs_stat world pathName = inl err ->
  exists answer html,
    routeHandler this world pathName req res = Done answer
    /\ statusCode answer = 400
    /\ _headers answer !! "content-type" = Some "text/html"
    /\ body answer = Ended (Some (Text html))
    /\ contains html (url req).
Proof.
  intros Hfb Hstat. unfold routeHandler. rewrite Hfb, Hstat.
  eexists. eexists. split; [reflexivity|]. repeat split.
  - cbn. apply lookup_insert_eq.
  - apply contains_middle.
Qed.

Lemma not_found_is_400_witness :
  exists answer html,
    routeHandler exampleServer exampleWorld "/www/foo/"
      (request "/foo/" []) newResponse
    = Done answer
    /\ statusCode answer = 400
    /\ _headers answer !! "content-type" = Some "text/html"
    /\ body answer = Ended (Some (Text html))
    /\ contains html (url (request "/foo/" [])).
Proof.
  apply (not_found_is_400 exampleServer exampleWorld "/www/foo/"
           (request "/foo/" []) newResponse (ErrnoException "ENOENT"));
    vm_compute; reflexivity.
Defined.

(** What [respondFile] leaves of the response it was given: the status,
    unless a [Range] header was handled, and every header but the four it may
    write. *)
Lemma respondFile_null_stat `{NodeLib} (this : StaticServer)
  (pathName : string) (req : Request) (res : Response) :
  let base :=
    setHeader "Accept-Ranges" "bytes"
      (setHeader "Content-Type" (mime.lookup pathName) res) in
  if truthy (headers req !! "range") then
    respondFile this None pathName req res = Thrown TypeError base
  else
    exists stream answer,
      respondFile this None pathName req res = Done answer
      /\ body answer = Piped stream
      /\ source_of stream = (pathName, None)
      /\ statusCode answer = statusCode res
      /\ forall key, key <> "content-type" -> key <> "accept-ranges" ->
           key <> "content-encoding" ->
           _headers answer !! key = _headers res !! key.
Proof.
  intros base. unfold respondFile. fold base.
  assert (Hbase : forall key, key <> "content-type" -> key <> "accept-ranges" ->
            _headers base !! key = _headers res !! key).
  { intros key Hc Ha. unfold base.
    now skip_headers. }
  assert (Hserve : exists stream answer,
    (let (readStream, res0) :=
       if shouldCompress this pathName
       then compressHandler (FileStream pathName None) req base
       else (Some (FileStream pathName None), base) in
     match readStream with
     | Some readStream => Done (pipe readStream res0)
     | None => Thrown TypeError res0
     end) = Done answer
    /\ body answer = Piped stream
    /\ source_of stream = (pathName, None)
    /\ statusCode answer = statusCode res
    /\ forall key, key <> "content-type" -> key <> "accept-ranges" ->
         key <> "content-encoding" ->
         _headers answer !! key = _headers res !! key).
  { destruct (shouldCompress this pathName).
    - rewrite compressHandler_negotiates.
      destruct (offers "gzip" req); [|destruct (offers "deflate" req)];
        eexists; eexists; (split; [reflexivity|]); repeat split;
        intros key Hc Ha He; cbn [pipe _headers];
        skip_headers; now apply Hbase.
    - eexists; eexists; (split; [reflexivity|]); repeat split.
      intros key Hc Ha _. now apply Hbase. }
  destruct (headers req !! "range") as [[|c t]|]; cbn; auto.
Qed.

(** C10. On the fallback branch [routeHandler] is [respondFile] on the index
    page with a [null] stat, and nothing of the freshness flow runs: the
    response keeps the [ETag], [Last-Modified], [Cache-Control] and [Expires]
    it came with (none, for a new response) and its status (200, so never
    304).  Without a [Range] header the index page is piped; with one, the
    size is read from the [null] stat and the handler throws. *)
Theorem fallback_bypasses_freshness `{NodeLib} (this : StaticServer)
  (world : World) (pathName : string) (req : Request) (res : Response) :
  isFallbackPath pathName = true ->
  routeHandler this world pathName req res
  = respondFile this None (path_join (root this) (indexPage this)) req res
  /\ (forall key,
        key = "etag" \/ key = "last-modified" \/ key = "cache-control"
        \/ key = "expires" ->
        _headers (response_of (routeHandler this world pathName req res)) !! key
        = _headers res !! key)
  /\ statusCode (response_of (routeHandler this world pathName req res))
     = statusCode res
  /\ (truthy (headers req !! "range") = false ->
      exists stream answer,
        routeHandler this world pathName req res = Done answer
        /\ body answer = Piped stream
        /\ source_of stream = (path_join (root this) (indexPage this), None))
  /\ (truthy (headers req !! "range") = true ->
      exists left,
        routeHandler this world pathName req res = Thrown TypeError left
        /\ body left = body res).
Proof.
  intros Hfb. unfold routeHandler. rewrite Hfb.
  pose proof (respondFile_null_stat this
                (path_join (root this) (indexPage this)) req res) as Hfile.
  cbv zeta in Hfile.
  destruct (truthy (headers req !! "range")).
  - rewrite Hfile. cbn [response_of]. repeat split; try discriminate.
    + intros key [-> | [-> | [-> | ->]]]; now skip_headers.
    + intros _. eexists. split; reflexivity.
  - destruct Hfile as (stream & answer & -> & Hbody & Hsrc & Hstatus & Hkeys).
    cbn. repeat split; try discriminate; auto.
    + intros key Hkey. apply Hkeys;
        destruct Hkey as [-> | [-> | [-> | ->]]]; discriminate.
    + intros _. now exists stream, answer.
Qed.

Lemma fallback_bypasses_freshness_witness :
  routeHandler exampleServer exampleWorld "/www/homepage"
    (request "/homepage" []) newResponse
  = respondFile exampleServer None
      (path_join (root exampleServer) (indexPage exampleServer))
      (request "/homepage" []) newResponse
  /\ (forall key,
        key = "etag" \/ key = "last-modified" \/ key = "cache-control"
        \/ key = "expires" ->
        _headers
          (response_of
             (routeHandler exampleServer exampleWorld "/www/homepage"
                (request "/homepage" []) newResponse)) !! key
        = _headers newResponse !! key)
  /\ statusCode
       (response_of
          (routeHandler exampleServer exampleWorld "/www/homepage"
             (request "/homepage" []) newResponse))
     = statusCode newResponse
  /\ (truthy (headers (request "/homepage" []) !! "range") = false ->
      exists stream answer,
        routeHandler exampleServer exampleWorld "/www/homepage"
          (request "/homepage" []) newResponse
        = Done answer
        /\ body answer = Piped stream
        /\ source_of stream
           = (path_join (root exampleServer) (indexPage exampleServer), None))
  /\ (truthy (headers (request "/homepage" []) !! "range") = true ->
      exists left,
        routeHandler exampleServer exampleWorld "/www/homepage"
          (request "/homepage" []) newResponse
        = Thrown TypeError left
        /\ body left = body newResponse).
Proof.
  apply (fallback_bypasses_freshness exampleServer exampleWorld "/www/homepage"
           (request "/homepage" []) newResponse).
  vm_compute. reflexivity.
Defined.

(** C2. A request on the fallback branch that carries a [Range] header is
    not served the index page: [respondFile] reads the size from the [null]
    stat it was given and throws, with the response not yet ended. *)
Example fallback_with_range_throws :
  isFallbackPath "/www/homepage" = true
  /\ routeHandler exampleServer exampleWorld "/www/homepage"
       (request "/homepage" [("range", "bytes=0-99")]) newResponse
     = Thrown TypeError
         (setHeader "Accept-Ranges" "bytes"
            (setHeader "Content-Type" "text/html" newResponse))
  /\ start exampleServer exampleWorld
       (request "/homepage" [("range", "bytes=0-99")])
     = Thrown TypeError
         (setHeader "Accept-Ranges" "bytes"
            (setHeader "Content-Type" "text/html" newResponse)).
Proof. vm_compute. repeat split; reflexivity. Qed.

Lemma rewriteUrl_url (req : Request) :
  (indexOf (url req) "static" <= 0 -> url (rewriteUrl req) = url req)
  /\ (0 < indexOf (url req) "static" ->
      url (rewriteUrl req)
      = substring_from (url req) (indexOf (url req) "static")).
Proof.
  unfold rewriteUrl.
  destruct (0 <? indexOf (url req) "static") eqn:Hpos; cbn; split;
    intros; try reflexivity; lia.
Qed.

(** C4, as the code has it.  When the path resolved from the rewritten URL
    lies outside the fallback and stats as a directory, and the pathname of the
    rewritten URL has no trailing slash, the server answers 301 with a
    [Location] that is the rewritten URL plus a slash: the URL of the request
    plus a slash when that URL does not hold [static] at an offset above zero,
    and the URL cut to start at [static] plus a slash when it does. *)
Theorem redirect_location `{NodeLib} (this : StaticServer) (world : World)
  (req : Request) (stat : Stats.t) (requestedPath : string) :
  isFallbackPath
    (path_join (root this) (path_normalize (url (rewriteUrl req)))) = false ->
  fs_stat world (path_join (root this) (path_normalize (url (rewriteUrl req))))
  = inr stat ->
  Stats.isDirectory stat = true ->
  url_pathname (url (rewriteUrl req)) = Some requestedPath ->
  hasTrailingSlash requestedPath = false ->
  exists answer,
    start this world req = Done answer
    /\ statusCode answer = 301
    /\ _headers answer !! "location" = Some (url (rewriteUrl req) +:+ "/")
    /\ (indexOf (url req) "static" <= 0 -> url (rewriteUrl req) = url req)
    /\ (0 < indexOf (url req) "static" ->
        url (rewriteUrl req)
        = substring_from (url req) (indexOf (url req) "static")).
Proof.
  intros Hfb Hstat Hdir Hpath Hslash. unfold start, routeHandler.
  rewrite Hfb, Hstat, Hpath, Hslash, Hdir. cbn [andb].
  eexists. split; [reflexivity|]. split; [reflexivity|].
  split; [|apply rewriteUrl_url].
  unfold respondRedirect, writeHead. cbn [fold_left end_with _headers fst snd].
  skip_headers. now apply lookup_setHeader_eq.
Qed.

Lemma redirect_location_witness :
  exists answer,
    start exampleServer exampleWorld (request "/docs" []) = Done answer
    /\ statusCode answer = 301
    /\ _headers answer !! "location"
       = Some (url (rewriteUrl (request "/docs" [])) +:+ "/")
    /\ (indexOf (url (request "/docs" [])) "static" <= 0 ->
        url (rewriteUrl (request "/docs" [])) = url (request "/docs" []))
    /\ (0 < indexOf (url (request "/docs" [])) "static" ->
        url (rewriteUrl (request "/docs" []))
        = substring_from (url (request "/docs" []))
            (indexOf (url (request "/docs" [])) "static")).
Proof.
  apply (redirect_location exampleServer exampleWorld (request "/docs" [])
           exampleDirectory "/docs"); vm_compute; reflexivity.
Defined.

(** C4, as it is worded.  The URL [/foo/static] holds [static] at offset 5
    and is rewritten to [static]; the path [/www/static] stats as a directory
    and the URL has no trailing slash; the answer is 301 with the [Location]
    [static/], which is not the URL of the request plus a slash. *)
Lemma redirect_after_static_rewrite :
  indexOf "/foo/static" "static" = 5
  /\ hasTrailingSlash "/foo/static" = false
  /\ fs_stat exampleWorld
       (path_join (root exampleServer)
          (path_normalize (url (rewriteUrl (request "/foo/static" [])))))
     = inr exampleDirectory
  /\ statusCode
       (response_of (start exampleServer exampleWorld (request "/foo/static" [])))
     = 301
  /\ _headers
       (response_of (start exampleServer exampleWorld (request "/foo/static" [])))
       !! "location"
     = Some "static/"
  /\ _headers
       (response_of (start exampleServer exampleWorld (request "/foo/static" [])))
       !! "location"
     <> Some ("/foo/static" +:+ "/").
Proof. vm_compute. repeat split; try reflexivity. discriminate. Qed.

(** The listener hands [routeHandler] the rewritten request, so the text of
    the 400 answer names the rewritten URL. *)
Lemma start_not_found `{NodeLib} (this : StaticServer) (world : World)
  (req : Request) (err : SysError) :
  isFallbackPath
    (path_join (root this) (path_normalize (url (rewriteUrl req)))) = false ->
  fs_stat world (path_join (root this) (path_normalize (url (rewriteUrl req))))
  = inl err ->
  start this world req = Done (respondNotFound (rewriteUrl req) newResponse).
Proof. intros Hfb Hstat. unfold start, routeHandler. now rewrite Hfb, Hstat. Qed.

(** Under the listener the response is new, so on the fallback branch the
    answer has status 200 and none of the four cache headers. *)
Lemma start_fallback `{NodeLib} (this : StaticServer) (world : World)
  (req : Request) (key : string) :
  isFallbackPath
    (path_join (root this) (path_normalize (url (rewriteUrl req)))) = true ->
  key = "etag" \/ key = "last-modified" \/ key = "cache-control"
  \/ key = "expires" ->
  statusCode (response_of (start this world req)) = 200
  /\ _headers (response_of (start this world req)) !! key = None.
Proof.
  intros Hfb Hkey. unfold start, routeHandler. rewrite Hfb.
  pose proof (respondFile_null_stat this
                (path_join (root this) (indexPage this)) (rewriteUrl req)
                newResponse) as Hfile.
  cbv zeta in Hfile.
  destruct (truthy (headers (rewriteUrl req) !! "range")).
  - rewrite Hfile. cbn [response_of]. split; [reflexivity|].
    destruct Hkey as [-> | [-> | [-> | ->]]]; now skip_headers.
  - destruct Hfile as (stream & answer & -> & _ & _ & Hstatus & Hkeys).
    cbn [response_of]. split; [exact Hstatus|].
    rewrite Hkeys by (destruct Hkey as [-> | [-> | [-> | ->]]]; discriminate).
    reflexivity.
Qed.

End Router.

(** * Further properties of the handlers *)

(** ** Vocabulary *)

(** The answer of [rangeHandler] to a range it rejects, and to one it
    serves. *)
Definition rejected (totalSize : Z) (res : Response) : Response :=
  end_with None
    (setHeader "Content-Range" ("bytes */" +:+ pretty totalSize)
       (setStatus 416 res)).

Definition partial (a b totalSize : Z) (res : Response) : Response :=
  setHeader "Content-Range"
    ("bytes " +:+ pretty a +:+ "-" +:+ pretty b +:+ "/" +:+ pretty totalSize)
    (setStatus 206 res).

(** [s] does not open with a decimal digit. *)
Definition no_digit_ahead (s : string) : bool :=
  match s with
  | String c _ => negb (is_digit c)
  | EmptyString => true
  end.

(** The line of one entry in a directory listing, as the loop of
    [respondDirectory] writes it. *)
Definition entryLine `{NodeLib} (requestPath : string) (isDir : bool)
  (file : string) : string :=
  let filePath := path_join requestPath file in
  let (filePath, file) :=
    if isDir then (path_join filePath "/", path_join file "/")
    else (filePath, file) in
  "<p><a href='" +:+ filePath +:+ "'>" +:+ file +:+ "</a></a></p>".

(** The status codes the handlers write. *)
Definition known_status (code : Z) : Prop :=
  code = 200 \/ code = 206 \/ code = 301 \/ code = 304 \/ code = 400
  \/ code = 416 \/ code = 500.

(** The response once [readStream] has gone through the compression step
    of [respondFile] and has been piped. *)
Definition piped `{NodeLib} (this : StaticServer) (pathName : string)
  (req : Request) (readStream : Stream) (res : Response) : Response :=
  if shouldCompress this pathName then
    if offers "gzip" req then
      pipe (Gzip readStream) (setHeader "Content-Encoding" "gzip" res)
    else if offers "deflate" req then
      pipe (Deflate readStream) (setHeader "Content-Encoding" "deflate" res)
    else pipe readStream res
  else pipe readStream res.

(** Whether a path stats as a directory. *)
Definition isDirectoryAt (world : World) (p : string) : bool :=
  match fs_stat world p with
  | inr st => Stats.isDirectory st
  | inl _ => false
  end.

(** The texts of a list, one after the other. *)
Definition concat_all (l : list string) : string :=
  fold_right String.append EmptyString l.

(** Every entry of a directory can be stat'ed. *)
Definition all_stat `{NodeLib} (world : World) (pathName : string)
  (files : list string) : Prop :=
  Forall (fun file => exists st,
            fs_stat world (path_join pathName file) = inr st) files.

(** A second file system for the worked examples: [/srv/pub] holds the
    file [a.txt] and the directory [img]; [/srv/tmp] lists [a.txt], [gone]
    and [z], of which [gone] cannot be stat'ed (a dangling link). *)
Definition listingStat (p : string) : SysError + Stats.t :=
  let p := chomp p in
  if bool_decide (p = "/srv/pub" \/ p = "/srv/pub/img" \/ p = "/srv/tmp")
  then inr exampleDirectory
  else if bool_decide (p = "/srv/pub/a.txt" \/ p = "/srv/tmp/a.txt"
                       \/ p = "/srv/tmp/z")
  then inr exampleFile
  else inl (ErrnoException "ENOENT").

Definition listingWorld : World :=
  {| fs_stat := listingStat;
     fs_existsSync := fun p =>
       match listingStat p with inr _ => true | inl _ => false end;
     fs_readdir := fun p =>
       if bool_decide (chomp p = "/srv/pub") then inr ["a.txt"; "img"]
       else if bool_decide (chomp p = "/srv/tmp") then inr ["a.txt"; "gone"; "z"]
       else inl (ErrnoException "ENOTDIR");
     Date_now := 1530453661000 |}.

(** [w] stands in [s] as a word of its own: no letter, digit or underscore
    touches it on either side. *)
Definition stands_alone (w s : string) : Prop :=
  exists pre post,
    s = pre +:+ w +:+ post
    /\ wordb (last_char pre) = false /\ wordb (head_char post) = false.

(** [Accept-Encoding] is sent and holds [w] as a word of its own. *)
Definition accepts (req : Request) (w : string) : Prop :=
  exists acceptEncoding,
    headers req !! "accept-encoding" = Some acceptEncoding
    /\ stands_alone w acceptEncoding.

(** The value of a hexadecimal digit in lower case. *)
Definition hex_digit_val (c : ascii) : Z :=
  let n := Z.of_nat (nat_of_ascii c) in
  if n <? 58 then n - 48 else n - 87.

Fixpoint from_hex_acc (acc : Z) (s : string) : Z :=
  match s with
  | String c t => from_hex_acc (16 * acc + hex_digit_val c) t
  | EmptyString => acc
  end.

(** Reads back what [toString16] writes. *)
Definition parse16 (s : string) : Z :=
  match s with
  | String c t =>
      if Ascii.eqb c "-" then - from_hex_acc 0 t else from_hex_acc 0 s
  | EmptyString => 0
  end.

(** [s] opens with a character that is no dash. *)
Definition head_not_dash (s : string) : bool :=
  match s with
  | String c _ => negb (Ascii.eqb c "-")
  | EmptyString => false
  end.

(** ** Strings *)

Section Strings.

Lemma append_cons (x : ascii) (a b : string) :
  String x a +:+ b = String x (a +:+ b).
Proof. reflexivity. Qed.

Lemma append_assoc (a b c : string) : (a +:+ b) +:+ c = a +:+ (b +:+ c).
Proof.
  induction a as [|x a IH]; [reflexivity|].
  rewrite !append_cons. now f_equal.
Qed.

Lemma append_nil_r (a : string) : a +:+ EmptyString = a.
Proof.
  induction a as [|x a IH]; [reflexivity|]. rewrite append_cons. now f_equal.
Qed.

Lemma strip_prefix_app (p r : string) : strip_prefix p (p +:+ r) = Some r.
Proof.
  induction p as [|a p IH]; simpl; [now destruct r|].
  now rewrite Ascii.eqb_refl.
Qed.

Lemma strip_prefix_Some (p s r : string) :
  strip_prefix p s = Some r -> s = p +:+ r.
Proof.
  revert s. induction p as [|a p IH]; intros s; simpl.
  - destruct s; now intros [= <-].
  - destruct s as [|b s]; [discriminate|].
    destruct (Ascii.eqb_spec a b) as [->|]; [|discriminate].
    intros Hs. now rewrite (IH _ Hs).
Qed.

Lemma span_digits_spec (s : string) :
  s = fst (span_digits s) +:+ snd (span_digits s)
  /\ all_digits (fst (span_digits s)) = true
  /\ no_digit_ahead (snd (span_digits s)) = true.
Proof.
  induction s as [|c t (IH1 & IH2 & IH3)]; simpl; [auto|].
  destruct (is_digit c) eqn:Hc.
  - destruct (span_digits t) as [d r]; simpl in *.
    rewrite Hc, IH2. repeat split; auto. now rewrite append_cons, <- IH1.
  - simpl. now rewrite Hc.
Qed.

Lemma span_digits_ahead (ds rest : string) :
  all_digits ds = true -> no_digit_ahead rest = true ->
  span_digits (ds +:+ rest) = (ds, rest).
Proof.
  intros Hds Hrest. apply span_digits_app; [exact Hds|].
  destruct rest as [|c t]; [reflexivity|]. simpl in Hrest.
  now apply negb_true_iff.
Qed.

Lemma decimal_acc_nonneg (ds : string) (acc : Z) :
  all_digits ds = true -> 0 <= acc -> 0 <= decimal_acc acc ds.
Proof.
  revert acc. induction ds as [|c t IH]; intros acc Hds Hacc; simpl; [lia|].
  simpl in Hds. apply andb_true_iff in Hds as [Hc Ht].
  apply IH; [exact Ht|]. unfold is_digit in Hc. unfold digit_val.
  apply andb_true_iff in Hc as [Hlo _]. apply Nat.leb_le in Hlo. lia.
Qed.

Lemma decimal_nonneg (ds : string) : all_digits ds = true -> 0 <= decimal ds.
Proof. intros Hds. now apply decimal_acc_nonneg. Qed.

Lemma indexOf_from_range (i : Z) (needle s : string) :
  indexOf_from i needle s = -1 \/ i <= indexOf_from i needle s.
Proof.
  revert i. induction s as [|c t IH]; intros i; simpl.
  - destruct (strip_prefix needle EmptyString); [right; lia | now left].
  - destruct (strip_prefix needle (String c t)); [right; lia|].
    destruct (IH (i + 1)) as [->|]; [now left | right; lia].
Qed.

(** [indexOf] from a start offset is [indexOf] from zero, moved. *)
Lemma indexOf_from_shift (i : Z) (needle s : string) :
  indexOf_from i needle s
  = if indexOf_from 0 needle s =? -1 then -1 else i + indexOf_from 0 needle s.
Proof.
  revert i. induction s as [|c t IH]; intros i; simpl.
  - destruct (strip_prefix needle EmptyString); simpl; [lia | reflexivity].
  - destruct (strip_prefix needle (String c t)); simpl; [lia|].
    rewrite (IH (i + 1)), (IH (0 + 1)).
    destruct (indexOf_from_range 0 needle t) as [E|E].
    + now rewrite E.
    + repeat match goal with
             | |- context [?a =? ?b] => destruct (Z.eqb_spec a b)
             end; lia.
Qed.

(** Where [indexOf] points, the needle stands. *)
Lemma indexOf_found (s needle : string) :
  0 <= indexOf s needle ->
  exists rest,
    strip_prefix needle (substring_from s (indexOf s needle)) = Some rest.
Proof.
  unfold indexOf, substring_from. induction s as [|c t IH]; simpl.
  - destruct (strip_prefix needle EmptyString) as [r|] eqn:E; [|lia].
    intros _. exists r. exact E.
  - destruct (strip_prefix needle (String c t)) as [r|] eqn:E.
    + intros _. exists r. exact E.
    + rewrite (indexOf_from_shift (0 + 1)).
      destruct (Z.eqb_spec (indexOf_from 0 needle t) (-1)) as [|E1]; [lia|].
      intros _.
      destruct (indexOf_from_range 0 needle t) as [|Hge]; [lia|].
      replace (Z.to_nat (0 + 1 + indexOf_from 0 needle t))
        with (S (Z.to_nat (indexOf_from 0 needle t))) by lia.
      simpl. apply IH. exact Hge.
Qed.

Lemma indexOf_from_unfold (i : Z) (needle s : string) :
  indexOf_from i needle s
  = match strip_prefix needle s with
    | Some _ => i
    | None =>
        match s with
        | String _ t => indexOf_from (i + 1) needle t
        | EmptyString => -1
        end
    end.
Proof. now destruct s. Qed.

Lemma contains_indexOf (s needle : string) :
  contains s needle <-> 0 <= indexOf s needle.
Proof.
  split.
  - intros (pre & post & ->). unfold indexOf.
    induction pre as [|c pre IH].
    + change (EmptyString +:+ needle +:+ post) with (needle +:+ post).
      rewrite indexOf_from_unfold, strip_prefix_app. lia.
    + rewrite append_cons, indexOf_from_unfold.
      destruct (strip_prefix needle _); [lia|].
      rewrite (indexOf_from_shift (0 + 1)).
      destruct (Z.eqb_spec (indexOf_from 0 needle (pre +:+ needle +:+ post)) (-1));
        lia.
  - intros Hge. destruct (indexOf_found s needle Hge) as [rest Hrest].
    apply strip_prefix_Some in Hrest. unfold substring_from in Hrest.
    revert Hrest. generalize (Z.to_nat (indexOf s needle)) as n. clear Hge.
    intros n. revert s. induction n as [|n IH]; intros s Hs.
    + exists EmptyString, rest. destruct s; exact Hs.
    + destruct s as [|c t].
      * exists EmptyString, rest. exact Hs.
      * destruct (IH t Hs) as (pre & post & ->).
        now exists (String c pre), post.
Qed.

End Strings.

(** ** The range calculator, continued *)

Section RangeForms.

Lemma range_regex_here_at (ds post : string) :
  all_digits ds = true ->
  range_regex_here ("bytes=" +:+ ds +:+ "-" +:+ post)
  = Some (ds, fst (span_digits post)).
Proof.
  intros Hds. unfold range_regex_here.
  rewrite (strip_prefix_app "bytes=" (ds +:+ "-" +:+ post)).
  rewrite (span_digits_ahead ds ("-" +:+ post) Hds eq_refl).
  reflexivity.
Qed.

Lemma range_regex_here_inv (s : string) (g : string * string) :
  range_regex_here s = Some g ->
  exists post,
    all_digits (fst g) = true /\ s = "bytes=" +:+ fst g +:+ "-" +:+ post.
Proof.
  unfold range_regex_here.
  destruct (strip_prefix "bytes=" s) as [r|] eqn:Hp; [|discriminate].
  apply strip_prefix_Some in Hp.
  destruct (span_digits_spec r) as (Hr & Hd & _).
  destruct (span_digits r) as [g1 r1]; simpl in *.
  destruct r1 as [|c r2]; [discriminate|].
  destruct (Ascii.eqb_spec c "-") as [->|]; [|discriminate].
  intros [= <-]. exists r2. simpl. split; [exact Hd|]. now rewrite Hp, Hr.
Qed.

Lemma range_regex_match_inv (s : string) (g : string * string) :
  range_regex_match s = Some g ->
  exists pre t, s = pre +:+ t /\ range_regex_here t = Some g.
Proof.
  induction s as [|c t IH].
  - intros Hg. now vm_compute in Hg.
  - change (range_regex_match (String c t))
      with (match range_regex_here (String c t) with
            | Some g => Some g
            | None => range_regex_match t
            end).
    destruct (range_regex_here (String c t)) as [g'|] eqn:Hh.
    + intros [= ->]. now exists EmptyString, (String c t).
    + intros Hg. destruct (IH Hg) as (pre & u & -> & Hu).
      now exists (String c pre), u.
Qed.

Lemma range_regex_match_found (pre t : string) (g : string * string) :
  range_regex_here t = Some g -> is_Some (range_regex_match (pre +:+ t)).
Proof.
  intros Hg. induction pre as [|c pre IH].
  - change (EmptyString +:+ t) with t.
    rewrite (range_regex_match_here t g Hg). now eexists.
  - rewrite append_cons.
    change (range_regex_match (String c (pre +:+ t)))
      with (match range_regex_here (String c (pre +:+ t)) with
            | Some g => Some g
            | None => range_regex_match (pre +:+ t)
            end).
    destruct (range_regex_here (String c (pre +:+ t))); [now eexists | exact IH].
Qed.

(** X4. [getRange] throws exactly on the headers that hold nowhere the text
    [bytes=], a run of digits that may be empty, and a dash. *)
Theorem getRange_throws_iff (rangeText : string) (totalSize : Z) :
  getRange rangeText totalSize = Throw TypeError <->
  ~ exists pre ds post,
      all_digits ds = true
      /\ rangeText = pre +:+ "bytes=" +:+ ds +:+ "-" +:+ post.
Proof.
  unfold getRange. split.
  - intros Hthrow (pre & ds & post & Hds & ->).
    destruct (range_regex_match_found pre _ _ (range_regex_here_at ds post Hds))
      as [[g1 g2] Hg].
    rewrite Hg in Hthrow.
    now destruct (isNaN (parseInt g1)), (isNaN (parseInt g2)).
  - intros Hnone. destruct (range_regex_match rangeText) as [[g1 g2]|] eqn:Hm;
      [|reflexivity].
    exfalso. apply Hnone.
    destruct (range_regex_match_inv _ _ Hm) as (pre & t & -> & Ht).
    destruct (range_regex_here_inv _ _ Ht) as (post & Hd & ->).
    now exists pre, g1, post.
Qed.

Lemma range_regex_match_at (da db post : string) :
  all_digits da = true -> all_digits db = true -> no_digit_ahead post = true ->
  range_regex_match ("bytes=" +:+ da +:+ "-" +:+ db +:+ post) = Some (da, db).
Proof.
  intros Ha Hb Hpost. apply range_regex_match_here.
  rewrite (range_regex_here_at da (db +:+ post) Ha).
  now rewrite (span_digits_ahead db post Hb Hpost).
Qed.

Lemma range_regex_match_both (da db : string) :
  all_digits da = true -> all_digits db = true ->
  range_regex_match ("bytes=" +:+ da +:+ "-" +:+ db) = Some (da, db).
Proof.
  intros Ha Hb.
  pose proof (range_regex_match_at da db EmptyString Ha Hb eq_refl) as E.
  now rewrite append_nil_r in E.
Qed.

(** X5. Whatever follows the second run of digits is not read: of a list of
    ranges only the first one counts, and trailing text is no error. *)
Theorem getRange_ignores_tail (da db post : string) (totalSize : Z) :
  all_digits da = true -> all_digits db = true -> no_digit_ahead post = true ->
  getRange ("bytes=" +:+ da +:+ "-" +:+ db +:+ post) totalSize
  = getRange ("bytes=" +:+ da +:+ "-" +:+ db) totalSize.
Proof.
  intros Ha Hb Hpost. unfold getRange.
  now rewrite (range_regex_match_at da db post Ha Hb Hpost),
    (range_regex_match_both da db Ha Hb).
Qed.

Lemma getRange_ignores_tail_witness :
  getRange "bytes=0-1,5-9" 10 = getRange "bytes=0-1" 10.
Proof.
  apply (getRange_ignores_tail "0" "1" ",5-9" 10); reflexivity.
Defined.

Lemma getRange_two_sided (da db : string) (totalSize : Z) :
  all_digits da = true -> da <> EmptyString ->
  all_digits db = true -> db <> EmptyString ->
  getRange ("bytes=" +:+ da +:+ "-" +:+ db) totalSize
  = Ok {| start_ := Num (decimal da); end_ := Num (decimal db) |}.
Proof.
  intros Ha Hna Hb Hnb. unfold getRange.
  rewrite (range_regex_match_both da db Ha Hb).
  now rewrite (parseInt_digits da Ha Hna), (parseInt_digits db Hb Hnb).
Qed.

(** A header with both bounds is served exactly when
    [start <= end <= size]; the bounds are used as they are, and the
    [Content-Range] prints them as numbers. *)
Lemma rangeHandler_two_sided (pathName da db : string) (totalSize : Z)
  (res : Response) :
  all_digits da = true -> da <> EmptyString ->
  all_digits db = true -> db <> EmptyString ->
  rangeHandler pathName ("bytes=" +:+ da +:+ "-" +:+ db) totalSize res
  = if (decimal db <? decimal da) || (totalSize <? decimal db)
    then Ok (None, rejected totalSize res)
    else Ok (Some (FileStream pathName
                     (Some {| start_ := Num (decimal da);
                              end_ := Num (decimal db) |})),
             partial (decimal da) (decimal db) totalSize res).
Proof.
  intros Ha Hna Hb Hnb. unfold rangeHandler.
  rewrite (getRange_two_sided da db totalSize Ha Hna Hb Hnb). cbn.
  destruct (Z.ltb_spec (decimal db) (decimal da)),
    (Z.ltb_spec totalSize (decimal da)), (Z.ltb_spec totalSize (decimal db));
    try reflexivity; lia.
Qed.

(** X2. A suffix header [bytes=-n] with [n] at most the size of the file
    (itself at most 2^53) is rejected only for [n = 0]; for [0 < n <= size] it
    is served with status 206 over the last [n] bytes, from [size - n], which
    is not negative, to [size - 1]. *)
Theorem rangeHandler_suffix (pathName ds : string) (totalSize : Z)
  (res : Response) :
  all_digits ds = true -> ds <> EmptyString ->
  decimal ds <= totalSize -> totalSize <= 2 ^ 53 ->
  rangeHandler pathName ("bytes=-" +:+ ds) totalSize res
  = (if decimal ds =? 0
     then Ok (None, rejected totalSize res)
     else Ok (Some (FileStream pathName
                      (Some {| start_ := Num (totalSize - decimal ds);
                               end_ := Num (totalSize - 1) |})),
              partial (totalSize - decimal ds) (totalSize - 1) totalSize res))
  /\ 0 <= totalSize - decimal ds
  /\ (decimal ds <> 0 -> totalSize - decimal ds <= totalSize - 1 < totalSize).
Proof.
  intros Hds Hne Hle Hsize. unfold rangeHandler, getRange.
  rewrite (range_regex_suffix_form ds Hds), (parseInt_digits ds Hds Hne),
    parseInt_empty.
  pose proof (decimal_nonneg ds Hds) as Hge. cbn.
  split; [|lia].
  destruct (Z.eqb_spec (decimal ds) 0),
    (Z.ltb_spec (totalSize - 1) (totalSize - decimal ds)),
    (Z.ltb_spec totalSize (totalSize - decimal ds)),
    (Z.ltb_spec totalSize (totalSize - 1)); try reflexivity; lia.
Qed.

Lemma rangeHandler_suffix_witness :
  rangeHandler "/www/app.js" "bytes=-3" 10 newResponse
  = (if decimal "3" =? 0
     then Ok (None, rejected 10 newResponse)
     else Ok (Some (FileStream "/www/app.js"
                      (Some {| start_ := Num (10 - decimal "3");
                               end_ := Num (10 - 1) |})),
              partial (10 - decimal "3") (10 - 1) 10 newResponse))
  /\ 0 <= 10 - decimal "3"
  /\ (decimal "3" <> 0 -> 10 - decimal "3" <= 10 - 1 < 10).
Proof.
  apply (rangeHandler_suffix "/www/app.js" "3" 10 newResponse);
    [reflexivity | discriminate | vm_compute; discriminate
    | vm_compute; discriminate].
Defined.

(** X3. An open-ended header [bytes=a-] is served exactly when [a < size], up to
    the last byte; on an empty file it is always rejected. *)
Theorem rangeHandler_open_ended (pathName ds : string) (totalSize : Z)
  (res : Response) :
  all_digits ds = true -> ds <> EmptyString ->
  rangeHandler pathName ("bytes=" +:+ ds +:+ "-") totalSize res
  = if totalSize <=? decimal ds
    then Ok (None, rejected totalSize res)
    else Ok (Some (FileStream pathName
                     (Some {| start_ := Num (decimal ds);
                              end_ := Num (totalSize - 1) |})),
             partial (decimal ds) (totalSize - 1) totalSize res).
Proof.
  intros Hds Hne. unfold rangeHandler, getRange.
  rewrite (range_regex_open_form ds Hds), (parseInt_digits ds Hds Hne),
    parseInt_empty. cbn.
  destruct (Z.leb_spec totalSize (decimal ds)),
    (Z.ltb_spec (totalSize - 1) (decimal ds)),
    (Z.ltb_spec totalSize (decimal ds)),
    (Z.ltb_spec totalSize (totalSize - 1)); try reflexivity; lia.
Qed.

Lemma rangeHandler_open_ended_witness :
  rangeHandler "/www/app.js" "bytes=4-" 10 newResponse
  = if 10 <=? decimal "4"
    then Ok (None, rejected 10 newResponse)
    else Ok (Some (FileStream "/www/app.js"
                     (Some {| start_ := Num (decimal "4");
                              end_ := Num (10 - 1) |})),
             partial (decimal "4") (10 - 1) 10 newResponse).
Proof.
  apply (rangeHandler_open_ended "/www/app.js" "4" 10 newResponse);
    (reflexivity || discriminate).
Defined.

End RangeForms.

(** ** The content transfer engine, continued *)

(** Reads a header or the status through the steps that leave it alone. *)
Ltac peel :=
  repeat first
    [ progress cbn [pipe end_with setStatus _headers statusCode body
                    response_of rejected partial]
    | rewrite lookup_setHeader_ne by header_ne
    | rewrite statusCode_setHeader
    | rewrite body_setHeader ].

Section TransferFrame.

Lemma rangeHandler_unfold (pathName rangeText : string) (totalSize : Z)
  (res : Response) :
  rangeHandler pathName rangeText totalSize res
  = match getRange rangeText totalSize with
    | Throw e => Throw e
    | Ok range =>
        if unsatisfiable range totalSize
        then Ok (None, rejected totalSize res)
        else Ok (Some (FileStream pathName (Some range)),
                 setHeader "Content-Range"
                   ("bytes " +:+ num_toString (start_ range) +:+ "-"
                    +:+ num_toString (end_ range) +:+ "/"
                    +:+ pretty totalSize)
                   (setStatus 206 res))
    end.
Proof.
  unfold rangeHandler. now destruct (getRange rangeText totalSize).
Qed.

(** [respondFile], with its three stages side by side. *)
Lemma respondFile_unfold `{NodeLib} (this : StaticServer)
  (stat : option Stats.t) (pathName : string) (req : Request)
  (res : Response) :
  respondFile this stat pathName req res
  = let base :=
      setHeader "Accept-Ranges" "bytes"
        (setHeader "Content-Type" (mime.lookup pathName) res) in
    if truthy (headers req !! "range") then
      match stat with
      | None => Thrown TypeError base
      | Some st =>
          match
            rangeHandler pathName (default EmptyString (headers req !! "range"))
              (Stats.size st) base
          with
          | Throw e => Thrown e base
          | Ok (None, res1) => Done res1
          | Ok (Some readStream, res1) =>
              Done (piped this pathName req readStream res1)
          end
      end
    else Done (piped this pathName req (FileStream pathName None) base).
Proof.
  assert (Hpipe : forall readStream res1,
    (let (readStream, res2) :=
       if shouldCompress this pathName
       then compressHandler readStream req res1
       else (Some readStream, res1) in
     match readStream with
     | Some readStream => Done (pipe readStream res2)
     | None => Thrown TypeError res2
     end) = Done (piped this pathName req readStream res1)).
  { intros readStream res1. unfold piped.
    destruct (shouldCompress this pathName); [|reflexivity].
    rewrite compressHandler_negotiates.
    now destruct (offers "gzip" req), (offers "deflate" req). }
  unfold respondFile. cbv zeta.
  destruct (headers req !! "range") as [[|c t]|]; cbn [truthy default];
    try apply Hpipe.
  destruct stat as [st|]; [|reflexivity].
  destruct (rangeHandler _ _ _ _) as [[[readStream|] res1]|e];
    [apply Hpipe | reflexivity | reflexivity].
Qed.

Lemma piped_frame `{NodeLib} (this : StaticServer) (pathName : string)
  (req : Request) (readStream : Stream) (res : Response) :
  statusCode (piped this pathName req readStream res) = statusCode res
  /\ (exists s, body (piped this pathName req readStream res) = Piped s
               /\ source_of s = source_of readStream)
  /\ forall key, key <> "content-encoding" ->
       _headers (piped this pathName req readStream res) !! key
       = _headers res !! key.
Proof.
  unfold piped.
  destruct (shouldCompress this pathName);
    [destruct (offers "gzip" req); [|destruct (offers "deflate" req)]|];
    (split; [reflexivity|]); (split; [eexists; split; reflexivity|]);
    intros key Hkey; now peel.
Qed.

Lemma piped_headers `{NodeLib} (this : StaticServer) (pathName : string)
  (req : Request) (readStream : Stream) (res : Response) (key : string) :
  key <> "content-encoding" ->
  _headers (piped this pathName req readStream res) !! key
  = _headers res !! key.
Proof. intros Hkey. now apply piped_frame. Qed.

(** Whatever [respondFile] does with the request, it touches no header
    besides [Content-Type], [Accept-Ranges], [Content-Range] and
    [Content-Encoding]. *)
Lemma respondFile_frame `{NodeLib} (this : StaticServer)
  (stat : option Stats.t) (pathName : string) (req : Request)
  (res : Response) (key : string) :
  key <> "content-type" -> key <> "accept-ranges" -> key <> "content-range" ->
  key <> "content-encoding" ->
  _headers (response_of (respondFile this stat pathName req res)) !! key
  = _headers res !! key.
Proof.
  intros Ht Ha Hr He. rewrite respondFile_unfold. cbv zeta.
  destruct (truthy (headers req !! "range")).
  - destruct stat as [st|]; [|now peel].
    rewrite rangeHandler_unfold.
    destruct (getRange _ _) as [range|e]; [|now peel].
    destruct (unsatisfiable range (Stats.size st)); [now peel|].
    cbn [response_of]. rewrite piped_headers by exact He. now peel.
  - cbn [response_of]. rewrite piped_headers by exact He. now peel.
Qed.

(** The status [respondFile] leaves: the one it found, 206 or 416. *)
Lemma respondFile_status `{NodeLib} (this : StaticServer)
  (stat : option Stats.t) (pathName : string) (req : Request)
  (res : Response) :
  statusCode (response_of (respondFile this stat pathName req res))
  = statusCode res
  \/ statusCode (response_of (respondFile this stat pathName req res)) = 206
  \/ statusCode (response_of (respondFile this stat pathName req res)) = 416.
Proof.
  rewrite respondFile_unfold. cbv zeta.
  destruct (truthy (headers req !! "range")).
  - destruct stat as [st|]; [|left; now peel].
    rewrite rangeHandler_unfold.
    destruct (getRange _ _) as [range|e]; [|left; now peel].
    destruct (unsatisfiable range (Stats.size st)); [right; right; now peel|].
    right; left. cbn [response_of].
    now rewrite (proj1 (piped_frame _ _ _ _ _)).
  - left. cbn [response_of]. now rewrite (proj1 (piped_frame _ _ _ _ _)).
Qed.

(** When [respondFile] returns, the response has been ended or a stream
    has been piped into it. *)
Lemma respondFile_answered `{NodeLib} (this : StaticServer)
  (stat : option Stats.t) (pathName : string) (req : Request)
  (res answer : Response) :
  respondFile this stat pathName req res = Done answer ->
  body answer <> Untouched.
Proof.
  rewrite respondFile_unfold. cbv zeta.
  assert (Hp : forall rs r, body (piped this pathName req rs r) <> Untouched).
  { intros rs r. destruct (piped_frame this pathName req rs r)
      as (_ & (s & -> & _) & _). discriminate. }
  destruct (truthy (headers req !! "range")).
  - destruct stat as [st|]; [|discriminate].
    rewrite rangeHandler_unfold.
    destruct (getRange _ _) as [range|e]; [|discriminate].
    destruct (unsatisfiable range (Stats.size st)); intros [= <-];
      [discriminate | apply Hp].
  - intros [= <-]. apply Hp.
Qed.

(** X6. In every outcome of [respondFile], a thrown one included, the response
    carries the [Content-Type] that [mime.lookup] gives for the path and
    [Accept-Ranges: bytes]; a [Content-Range] appears only when the request
    sent a [Range] header, a [Content-Encoding] only on a compressible path. *)
Theorem respondFile_headers `{NodeLib} (this : StaticServer)
  (stat : option Stats.t) (pathName : string) (req : Request)
  (res : Response) :
  _headers (response_of (respondFile this stat pathName req res))
    !! "content-type" = Some (mime.lookup pathName)
  /\ _headers (response_of (respondFile this stat pathName req res))
       !! "accept-ranges" = Some "bytes"
  /\ (truthy (headers req !! "range") = false ->
      _headers (response_of (respondFile this stat pathName req res))
        !! "content-range" = _headers res !! "content-range")
  /\ (shouldCompress this pathName = false ->
      _headers (response_of (respondFile this stat pathName req res))
        !! "content-encoding" = _headers res !! "content-encoding").
Proof.
  assert (Hoff : forall rs r, shouldCompress this pathName = false ->
            piped this pathName req rs r = pipe rs r).
  { intros rs r Hz. unfold piped. now rewrite Hz. }
  rewrite respondFile_unfold. cbv zeta. rewrite ?rangeHandler_unfold.
  destruct (truthy (headers req !! "range")) eqn:Hrange;
    [destruct stat as [st|];
     [rewrite rangeHandler_unfold;
      destruct (getRange _ _) as [range|e];
      [destruct (unsatisfiable range (Stats.size st))|]|]|];
    cbn [response_of]; rewrite ?piped_headers by discriminate;
    (split; [peel; now apply lookup_setHeader_eq|]);
    (split; [peel; now apply lookup_setHeader_eq|]);
    (split; [intros Hno; first [discriminate Hno | now peel]|]);
    intros Hz; rewrite ?(Hoff _ _ Hz); now peel.
Qed.

End TransferFrame.

(** ** The MIME resolver *)

Section Mime.

Lemma mime_get_keys (ext ty : string) :
  mime.get ext mime.mimeTypes = Some ty ->
  ext = "css" \/ ext = "gif" \/ ext = "html" \/ ext = "ico" \/ ext = "jpeg"
  \/ ext = "png" \/ ext = "jpg" \/ ext = "txt" \/ ext = "json" \/ ext = "js".
Proof.
  unfold mime.mimeTypes. cbn [mime.get].
  repeat match goal with
         | |- context [String.eqb ?k ext] =>
             destruct (String.eqb_spec k ext) as [<-|_]; [tauto|]
         end.
  discriminate.
Qed.

(** X8. A path whose extension is a dot and a key of the table gets the type the
    table holds for the key, and a path without extension gets
    [text/plain]. *)
Theorem lookup_by_extension `{NodeLib} (pathName : string) :
  (forall ext ty,
     path_extname pathName = "." +:+ ext ->
     mime.get ext mime.mimeTypes = Some ty ->
     mime.lookup pathName = ty)
  /\ (path_extname pathName = EmptyString ->
      mime.lookup pathName = "text/plain").
Proof.
  unfold mime.lookup. split.
  - intros ext ty -> Hget.
    destruct (mime_get_keys ext ty Hget)
      as [-> | [-> | [-> | [-> | [-> | [-> | [-> | [-> | [-> | ->]]]]]]]]];
      vm_compute in Hget; injection Hget as <-; reflexivity.
  - intros ->. reflexivity.
Qed.

End Mime.

(** ** The freshness evaluator, continued *)

Section Validators.

(** X9. Each switch governs its own header and no other: with the switch on
    the header gets its value, with the switch off it stays as it was. *)
Theorem setFreshHeaders_switches `{NodeLib} (this : StaticServer)
  (world : World) (stat : Stats.t) (res : Response) :
  _headers (setFreshHeaders this world stat res) !! "last-modified"
  = (if enableLastModified this then Some (toUTCString (Stats.mtime stat))
     else _headers res !! "last-modified")
  /\ _headers (setFreshHeaders this world stat res) !! "cache-control"
     = (if enableCacheControl this
        then Some ("public, max-age=" +:+ pretty (maxAge this))
        else _headers res !! "cache-control")
  /\ _headers (setFreshHeaders this world stat res) !! "etag"
     = (if enableETag this then Some (generateETag stat)
        else _headers res !! "etag")
  /\ _headers (setFreshHeaders this world stat res) !! "expires"
     = (if enableExpires this
        then Some (toUTCString (Date_now world + maxAge this * 1000))
        else _headers res !! "expires").
Proof.
  unfold setFreshHeaders.
  destruct (enableLastModified this), (enableCacheControl this),
    (enableETag this), (enableExpires this);
    repeat split; peel;
    first [reflexivity | now apply lookup_setHeader_eq].
Qed.

Lemma setFreshHeaders_etag `{NodeLib} (this : StaticServer) (world : World)
  (stat : Stats.t) (res : Response) :
  _headers (setFreshHeaders this world stat res) !! "etag"
  = (if enableETag this then Some (generateETag stat)
     else _headers res !! "etag").
Proof.
  unfold setFreshHeaders.
  destruct (enableLastModified this), (enableCacheControl this),
    (enableETag this), (enableExpires this); peel;
    first [reflexivity | now apply lookup_setHeader_eq].
Qed.

Lemma setFreshHeaders_date `{NodeLib} (this : StaticServer) (world : World)
  (stat : Stats.t) (res : Response) :
  _headers (setFreshHeaders this world stat res) !! "last-modified"
  = (if enableLastModified this then Some (toUTCString (Stats.mtime stat))
     else _headers res !! "last-modified").
Proof.
  unfold setFreshHeaders.
  destruct (enableLastModified this), (enableCacheControl this),
    (enableETag this), (enableExpires this); peel;
    first [reflexivity | now apply lookup_setHeader_eq].
Qed.

Lemma generateETag_cons (stat : Stats.t) :
  exists c t, generateETag stat = String c t.
Proof. unfold generateETag. now eexists _, _. Qed.

(** X11. Revalidation with the tag of the file: when ETags are on and the
    request sends back, as its only validator, the tag [generateETag] gives
    for the file as it is now, [respond] answers 304 with no body. *)
Theorem respond_revalidates_etag `{NodeLib} (this : StaticServer)
  (world : World) (pathName : string) (req : Request) (res : Response)
  (stat : Stats.t) :
  enableETag this = true ->
  fs_stat world pathName = inr stat ->
  headers req !! "if-none-match" = Some (generateETag stat) ->
  truthy (headers req !! "if-modified-since") = false ->
  respond this world pathName req res
  = Done (respondNotModified (setFreshHeaders this world stat res)).
Proof.
  intros Hon Hstat Hnm Hms. unfold respond. rewrite Hstat.
  pose proof (setFreshHeaders_etag this world stat res) as Htag.
  rewrite Hon in Htag.
  unfold isFresh. rewrite Htag, Hnm, Hms.
  destruct (generateETag_cons stat) as (c & t & ->).
  cbn. now rewrite Ascii.eqb_refl, String.eqb_refl.
Qed.

Lemma respond_revalidates_etag_witness :
  respond exampleServer exampleWorld "/www/app.js"
    (request "/app.js" [("if-none-match", generateETag exampleFile)])
    newResponse
  = Done (respondNotModified
            (setFreshHeaders exampleServer exampleWorld exampleFile
               newResponse)).
Proof.
  apply (respond_revalidates_etag exampleServer exampleWorld "/www/app.js"
           (request "/app.js" [("if-none-match", generateETag exampleFile)])
           newResponse exampleFile); reflexivity.
Defined.

(** X22. Revalidation with the date of the file: when [Last-Modified] is on
    and the request sends back, as its only validator, the date
    [toUTCString] gives for the modification time of the file, [respond]
    answers 304 with no body; the date is compared as a text. *)
Theorem respond_revalidates_date `{NodeLib} (this : StaticServer)
  (world : World) (pathName : string) (req : Request) (res : Response)
  (stat : Stats.t) :
  enableLastModified this = true ->
  fs_stat world pathName = inr stat ->
  toUTCString (Stats.mtime stat) <> EmptyString ->
  headers req !! "if-modified-since" = Some (toUTCString (Stats.mtime stat)) ->
  truthy (headers req !! "if-none-match") = false ->
  respond this world pathName req res
  = Done (respondNotModified (setFreshHeaders this world stat res)).
Proof.
  intros Hon Hstat Hdate Hms Hnm. unfold respond. rewrite Hstat.
  pose proof (setFreshHeaders_date this world stat res) as Hlm.
  rewrite Hon in Hlm.
  unfold isFresh. rewrite Hlm, Hnm, Hms.
  destruct (toUTCString (Stats.mtime stat)) as [|c t]; [contradiction|].
  cbn. now rewrite Ascii.eqb_refl, String.eqb_refl.
Qed.

Lemma respond_revalidates_date_witness :
  respond exampleServer exampleWorld "/www/app.js"
    (request "/app.js"
       [("if-modified-since", "Sun, 01 Jul 2018 00:00:00 GMT")])
    newResponse
  = Done (respondNotModified
            (setFreshHeaders exampleServer exampleWorld exampleFile
               newResponse)).
Proof.
  apply (respond_revalidates_date exampleServer exampleWorld "/www/app.js"
           (request "/app.js"
              [("if-modified-since", "Sun, 01 Jul 2018 00:00:00 GMT")])
           newResponse exampleFile);
    try reflexivity.
  vm_compute. discriminate.
Defined.

(** X12. With ETags switched off a new response has no [ETag] to compare with:
    a request that sends a non-empty [If-None-Match] is never answered 304,
    whatever its [If-Modified-Since]. *)
Theorem respond_without_etag_never_304 `{NodeLib} (this : StaticServer)
  (world : World) (pathName : string) (req : Request) :
  enableETag this = false ->
  truthy (headers req !! "if-none-match") = true ->
  statusCode (response_of (respond this world pathName req newResponse)) <> 304.
Proof.
  intros Hoff Hnm. unfold respond.
  destruct (fs_stat world pathName) as [err|stat]; [now peel|].
  pose proof (setFreshHeaders_etag this world stat newResponse) as Htag.
  rewrite Hoff in Htag.
  change (_headers newResponse) with (∅ : gmap string string) in Htag.
  rewrite lookup_empty in Htag.
  assert (Hstale : isFresh (headers req)
            (_headers (setFreshHeaders this world stat newResponse)) = false).
  { unfold isFresh. rewrite Htag, Hnm.
    now destruct (headers req !! "if-none-match") as [[|c t]|]. }
  rewrite Hstale.
  destruct (respondFile_status this (Some stat) pathName req
              (setFreshHeaders this world stat newResponse)) as [E|[E|E]];
    rewrite E; try discriminate.
  rewrite (proj1 (setFreshHeaders_status this world stat newResponse)).
  discriminate.
Qed.

Lemma respond_without_etag_never_304_witness :
  statusCode
    (response_of
       (respond
          {| port := 8080; root := "/www"; indexPage := "index.html";
             enableCacheControl := true; enableExpires := true;
             enableETag := false; enableLastModified := true; maxAge := 3600;
             zipMatch := fun _ => false |}
          exampleWorld "/www/app.js"
          (request "/app.js"
             [("if-none-match", generateETag exampleFile);
              ("if-modified-since", "Sun, 01 Jul 2018 00:00:00 GMT")])
          newResponse))
  <> 304.
Proof.
  apply (respond_without_etag_never_304
           {| port := 8080; root := "/www"; indexPage := "index.html";
              enableCacheControl := true; enableExpires := true;
              enableETag := false; enableLastModified := true; maxAge := 3600;
              zipMatch := fun _ => false |}
           exampleWorld "/www/app.js"
           (request "/app.js"
              [("if-none-match", generateETag exampleFile);
               ("if-modified-since", "Sun, 01 Jul 2018 00:00:00 GMT")]));
    reflexivity.
Defined.

(** X13. Once the file has stat'ed, every outcome of [respond] (304, a full or
    partial body, 416, a throw) carries the cache headers exactly as
    [setFreshHeaders] wrote them. *)
Theorem respond_keeps_cache_headers `{NodeLib} (this : StaticServer)
  (world : World) (pathName : string) (req : Request) (res : Response)
  (stat : Stats.t) (key : string) :
  fs_stat world pathName = inr stat ->
  key = "etag" \/ key = "last-modified" \/ key = "cache-control"
  \/ key = "expires" ->
  _headers (response_of (respond this world pathName req res)) !! key
  = _headers (setFreshHeaders this world stat res) !! key.
Proof.
  intros Hstat Hkey. unfold respond. rewrite Hstat.
  destruct (isFresh _ _); [now peel|].
  apply respondFile_frame;
    destruct Hkey as [-> | [-> | [-> | ->]]]; discriminate.
Qed.

Lemma respond_keeps_cache_headers_witness :
  _headers
    (response_of
       (respond exampleServer exampleWorld "/www/app.js"
          (request "/app.js" [("range", "bytes=0-99")]) newResponse))
    !! "etag"
  = _headers (setFreshHeaders exampleServer exampleWorld exampleFile
                newResponse) !! "etag".
Proof.
  apply (respond_keeps_cache_headers exampleServer exampleWorld "/www/app.js"
           (request "/app.js" [("range", "bytes=0-99")]) newResponse
           exampleFile "etag"); [reflexivity | now left].
Defined.

(** A failed stat is answered 500 with the error object as the body and
    with no header written. *)
Lemma respond_stat_error `{NodeLib} (this : StaticServer) (world : World)
  (pathName : string) (req : Request) (res : Response) (err : SysError) :
  fs_stat world pathName = inl err ->
  respond this world pathName req res
  = Done {| statusCode := 500; _headers := _headers res;
            body := Ended (Some (ErrorObject err)) |}.
Proof. intros Hstat. unfold respond. now rewrite Hstat. Qed.

End Validators.

(** ** The path router, continued *)

Section Routing.

Lemma last_char_snoc (p : string) (c : ascii) :
  last_char (p +:+ String c EmptyString) = Some c.
Proof.
  induction p as [|x p IH]; [reflexivity|].
  rewrite append_cons. cbn [last_char]. rewrite IH.
  now destruct (p +:+ String c EmptyString) eqn:E; [destruct p|].
Qed.

Lemma last_char_inv (s : string) (c : ascii) :
  last_char s = Some c -> exists p, s = p +:+ String c EmptyString.
Proof.
  induction s as [|x t IH]; [discriminate|]. cbn [last_char].
  destruct t as [|y t].
  - intros [= ->]. now exists EmptyString.
  - intros Hl. destruct (IH Hl) as [p ->]. now exists (String x p).
Qed.

(** X14. [hasTrailingSlash] holds of the texts that end in a slash, and of no
    other; the empty text has none. *)
Theorem hasTrailingSlash_iff (url : string) :
  hasTrailingSlash url = true <-> exists p, url = p +:+ "/".
Proof.
  unfold hasTrailingSlash. split.
  - destruct (last_char url) as [c|] eqn:Hl; [|discriminate].
    destruct (Ascii.eqb_spec c "/") as [->|]; [|discriminate].
    intros _. now apply last_char_inv.
  - intros [p ->]. now rewrite (last_char_snoc p "/").
Qed.

(** X15. The fallback test holds exactly of the paths in which [article/] or
    [homepage] occurs somewhere, in a directory name as well as in a file
    name. *)
Theorem isFallbackPath_iff (pathName : string) :
  isFallbackPath pathName = true <->
  contains pathName "article/" \/ contains pathName "homepage".
Proof.
  unfold isFallbackPath. rewrite !contains_indexOf, orb_true_iff.
  now rewrite !Z.leb_le.
Qed.

Lemma drop_suffix (n : nat) (s : string) : exists pre, s = pre +:+ drop n s.
Proof.
  revert s. induction n as [|n IH]; intros s.
  - exists EmptyString. now destruct s.
  - destruct s as [|c t]; [now exists EmptyString|].
    destruct (IH t) as [pre Hpre]. exists (String c pre).
    rewrite append_cons. cbn [drop]. now f_equal.
Qed.

(** X16. The rewrite of the listener only cuts a prefix off the URL; what it
    leaves holds [static] at offset zero or not at all, so rewriting twice is
    rewriting once. *)
Theorem rewriteUrl_settles (req : Request) :
  (exists pre, url req = pre +:+ url (rewriteUrl req))
  /\ indexOf (url (rewriteUrl req)) "static" <= 0
  /\ rewriteUrl (rewriteUrl req) = rewriteUrl req.
Proof.
  assert (Hidx : indexOf (url (rewriteUrl req)) "static" <= 0).
  { unfold rewriteUrl.
    destruct (Z.ltb_spec 0 (indexOf (url req) "static")) as [Hpos|Hle];
      [|exact Hle].
    cbn [url]. destruct (indexOf_found (url req) "static") as [rest Hrest];
      [lia|].
    unfold indexOf at 1. rewrite indexOf_from_unfold, Hrest. lia. }
  split; [|split; [exact Hidx|]].
  - unfold rewriteUrl.
    destruct (0 <? indexOf (url req) "static");
      [apply drop_suffix | now exists EmptyString].
  - unfold rewriteUrl at 1.
    now destruct (Z.ltb_spec 0 (indexOf (url (rewriteUrl req)) "static"));
      [lia|].
Qed.

Lemma listEntries_ok `{NodeLib} (world : World) (pathName requestPath : string)
  (files : list string) (content : string) :
  all_stat world pathName files ->
  listEntries world pathName (Some requestPath) content files
  = Ok (content
        +:+ concat_all
              (map (fun file =>
                      entryLine requestPath
                        (isDirectoryAt world (path_join pathName file)) file)
                 files)).
Proof.
  intros Hall. revert content.
  induction Hall as [|file rest [st Hst] _ IH]; intros content.
  - cbn. now rewrite append_nil_r.
  - cbn [listEntries map concat_all fold_right].
    unfold listEntry, fs_statSync, isDirectoryAt, entryLine. rewrite Hst.
    cbn [mbind Result_bind]. fold (concat_all (map (fun file0 =>
      entryLine requestPath (isDirectoryAt world (path_join pathName file0))
        file0) rest)).
    destruct (Stats.isDirectory st); unfold mbind, Result_bind;
      rewrite IH; unfold entryLine, isDirectoryAt;
      now rewrite !append_assoc.
Qed.

Lemma listEntries_fail `{NodeLib} (world : World)
  (pathName requestPath : string) (before after : list string)
  (file content : string) (err : SysError) :
  all_stat world pathName before ->
  fs_stat world (path_join pathName file) = inl err ->
  listEntries world pathName (Some requestPath) content
    (before ++ file :: after)
  = Throw (SysThrown err).
Proof.
  intros Hall Herr. revert content.
  induction Hall as [|f rest [st Hst] _ IH]; intros content.
  - cbn [app listEntries]. unfold listEntry, fs_statSync. now rewrite Herr.
  - cbn [app listEntries]. unfold listEntry at 1, fs_statSync. rewrite Hst.
    unfold mbind, Result_bind.
    destruct (Stats.isDirectory st); apply IH.
Qed.

(** X17. The listing of a directory without index page: status 200,
    [text/html], the heading and then one line per entry, in the order
    [readdir] gave them, the entries that are directories with a slash. *)
Theorem respondDirectory_listing `{NodeLib} (this : StaticServer)
  (world : World) (pathName requestPath : string) (req : Request)
  (res : Response) (files : list string) :
  fs_existsSync world (path_join pathName (indexPage this)) = false ->
  fs_readdir world pathName = inr files ->
  url_pathname (url req) = Some requestPath ->
  all_stat world pathName files ->
  respondDirectory this world pathName req res
  = Done
      (end_with
         (Some (Text
            ("<h1>Index of " +:+ requestPath +:+ ":</h1>"
             +:+ concat_all
                   (map (fun file =>
                           entryLine requestPath
                             (isDirectoryAt world (path_join pathName file))
                             file)
                      files))))
         (writeHead 200 [("Content-Type", "text/html")] res)).
Proof.
  intros Hindex Hdir Hpath Hall. unfold respondDirectory.
  rewrite Hindex, Hdir, Hpath. cbn [default].
  rewrite (listEntries_ok world pathName requestPath files _ Hall).
  now rewrite !append_assoc.
Qed.

Lemma respondDirectory_listing_witness :
  respondDirectory exampleServer listingWorld "/srv/pub/"
    (request "/pub/" []) newResponse
  = Done
      (end_with
         (Some (Text
            ("<h1>Index of " +:+ "/pub/" +:+ ":</h1>"
             +:+ concat_all
                   (map (fun file =>
                           entryLine "/pub/"
                             (isDirectoryAt listingWorld
                                (path_join "/srv/pub/" file))
                             file)
                      ["a.txt"; "img"]))))
         (writeHead 200 [("Content-Type", "text/html")] newResponse)).
Proof.
  apply (respondDirectory_listing exampleServer listingWorld "/srv/pub/"
           "/pub/" (request "/pub/" []) newResponse ["a.txt"; "img"]).
  - reflexivity.
  - reflexivity.
  - reflexivity.
  - repeat constructor; eexists; vm_compute; reflexivity.
Defined.

(** X18. One entry that cannot be stat'ed aborts the listing: [fs.statSync]
    throws out of the loop, and the response is left as it came, neither
    written nor ended. *)
Theorem respondDirectory_entry_fails `{NodeLib} (this : StaticServer)
  (world : World) (pathName requestPath : string) (req : Request)
  (res : Response) (before after : list string) (file : string)
  (err : SysError) :
  fs_existsSync world (path_join pathName (indexPage this)) = false ->
  fs_readdir world pathName = inr (before ++ file :: after) ->
  url_pathname (url req) = Some requestPath ->
  all_stat world pathName before ->
  fs_stat world (path_join pathName file) = inl err ->
  respondDirectory this world pathName req res = Thrown (SysThrown err) res.
Proof.
  intros Hindex Hdir Hpath Hall Herr. unfold respondDirectory.
  rewrite Hindex, Hdir, Hpath.
  now rewrite (listEntries_fail world pathName requestPath before after file
                 _ err Hall Herr).
Qed.

Lemma respondDirectory_entry_fails_witness :
  respondDirectory exampleServer listingWorld "/srv/tmp/"
    (request "/tmp/" []) newResponse
  = Thrown (SysThrown (ErrnoException "ENOENT")) newResponse.
Proof.
  apply (respondDirectory_entry_fails exampleServer listingWorld "/srv/tmp/"
           "/tmp/" (request "/tmp/" []) newResponse ["a.txt"] ["z"] "gone"
           (ErrnoException "ENOENT")).
  - reflexivity.
  - reflexivity.
  - reflexivity.
  - repeat constructor; eexists; vm_compute; reflexivity.
  - reflexivity.
Defined.

End Routing.

(** ** The whole pipeline *)

Section Pipeline.

Lemma respond_status `{NodeLib} (this : StaticServer) (world : World)
  (pathName : string) (req : Request) (res : Response) :
  statusCode res = 200 ->
  known_status (statusCode (response_of (respond this world pathName req res))).
Proof.
  intros Hres. unfold respond, known_status.
  destruct (fs_stat world pathName) as [err|stat]; [peel; tauto|].
  destruct (isFresh _ _); [peel; tauto|].
  destruct (respondFile_status this (Some stat) pathName req
              (setFreshHeaders this world stat res)) as [E|[E|E]];
    rewrite E; try tauto.
  rewrite (proj1 (setFreshHeaders_status this world stat res)), Hres. tauto.
Qed.

Lemma respondDirectory_status `{NodeLib} (this : StaticServer) (world : World)
  (pathName : string) (req : Request) (res : Response) :
  statusCode res = 200 ->
  known_status
    (statusCode (response_of (respondDirectory this world pathName req res))).
Proof.
  intros Hres. unfold respondDirectory.
  destruct (fs_existsSync world _); [now apply respond_status|].
  destruct (fs_readdir world pathName) as [err|files];
    [unfold known_status; peel; tauto|].
  destruct (listEntries _ _ _ _ _); unfold known_status; peel;
    [tauto | rewrite Hres; tauto].
Qed.

Lemma routeHandler_status `{NodeLib} (this : StaticServer) (world : World)
  (pathName : string) (req : Request) (res : Response) :
  statusCode res = 200 ->
  known_status
    (statusCode (response_of (routeHandler this world pathName req res))).
Proof.
  intros Hres. unfold routeHandler.
  destruct (isFallbackPath pathName).
  { destruct (respondFile_status this None
                (path_join (root this) (indexPage this)) req res) as [E|[E|E]];
      rewrite E, ?Hres; unfold known_status; tauto. }
  destruct (fs_stat world pathName) as [err|stat];
    [unfold known_status; peel; tauto|].
  destruct (url_pathname (url req)) as [requestedPath|];
    [|unfold known_status; peel; rewrite Hres; tauto].
  destruct (hasTrailingSlash requestedPath && Stats.isDirectory stat);
    [now apply respondDirectory_status|].
  destruct (Stats.isDirectory stat);
    [unfold known_status; peel; tauto | now apply respond_status].
Qed.

(** X19. Whatever the request and the file system, the status the listener
    leaves on the response is one of 200, 206, 301, 304, 400, 416 and 500: a
    missing path is answered 400, and 404 is never written. *)
Theorem start_status `{NodeLib} (this : StaticServer) (world : World)
  (req : Request) :
  known_status (statusCode (response_of (start this world req)))
  /\ statusCode (response_of (start this world req)) <> 404.
Proof.
  assert (Hk : known_status (statusCode (response_of (start this world req)))).
  { unfold start. now apply routeHandler_status. }
  split; [exact Hk|]. unfold known_status in Hk. lia.
Qed.

Lemma respond_answered `{NodeLib} (this : StaticServer) (world : World)
  (pathName : string) (req : Request) (res answer : Response) :
  respond this world pathName req res = Done answer ->
  body answer <> Untouched.
Proof.
  unfold respond.
  destruct (fs_stat world pathName) as [err|stat];
    [intros [= <-]; discriminate|].
  destruct (isFresh _ _); [intros [= <-]; discriminate|].
  apply respondFile_answered.
Qed.

Lemma respondDirectory_answered `{NodeLib} (this : StaticServer)
  (world : World) (pathName : string) (req : Request)
  (res answer : Response) :
  respondDirectory this world pathName req res = Done answer ->
  body answer <> Untouched.
Proof.
  unfold respondDirectory.
  destruct (fs_existsSync world _); [apply respond_answered|].
  destruct (fs_readdir world pathName) as [err|files];
    [intros [= <-]; discriminate|].
  destruct (listEntries _ _ _ _ _); [intros [= <-]|]; discriminate.
Qed.

(** X20. When the listener returns without a throw, the response has been
    answered: it is ended, or a stream is piped into it.  No path through the
    handlers returns and leaves the client waiting. *)
Theorem start_answers `{NodeLib} (this : StaticServer) (world : World)
  (req : Request) (answer : Response) :
  start this world req = Done answer ->
  body answer <> Untouched.
Proof.
  unfold start, routeHandler.
  destruct (isFallbackPath _); [apply respondFile_answered|].
  destruct (fs_stat world _) as [err|stat]; [intros [= <-]; discriminate|].
  destruct (url_pathname _) as [requestedPath|]; [|discriminate].
  destruct (hasTrailingSlash requestedPath && Stats.isDirectory stat);
    [apply respondDirectory_answered|].
  destruct (Stats.isDirectory stat);
    [intros [= <-]; discriminate | apply respond_answered].
Qed.

Lemma start_answers_witness :
  body
    (pipe (FileStream "/www/app.js" None)
       (setHeader "Accept-Ranges" "bytes"
          (setHeader "Content-Type" "text/javascript"
             (setFreshHeaders exampleServer exampleWorld exampleFile
                newResponse))))
  <> Untouched.
Proof.
  apply (start_answers exampleServer exampleWorld (request "/app.js" [])).
  vm_compute. reflexivity.
Defined.

End Pipeline.

(** ** Numbers and their texts *)

Section Decimal.

Lemma decimal_acc_shift (s : string) (acc : Z) :
  decimal_acc acc s
  = acc * 10 ^ Z.of_nat (String.length s) + decimal_acc 0 s.
Proof.
  revert acc. induction s as [|c t IH]; intros acc.
  - cbn. lia.
  - cbn [decimal_acc String.length].
    rewrite (IH (10 * acc + digit_val c)), (IH (10 * 0 + digit_val c)).
    rewrite Nat2Z.inj_succ, Z.pow_succ_r by lia. lia.
Qed.

Lemma pretty_N_char_digit (y : N) :
  (y < 10)%N ->
  is_digit (pretty_N_char y) = true /\ digit_val (pretty_N_char y) = Z.of_N y.
Proof.
  intros Hy.
  assert (y = 0 \/ y = 1 \/ y = 2 \/ y = 3 \/ y = 4 \/ y = 5 \/ y = 6 \/ y = 7
          \/ y = 8 \/ y = 9)%N as Hc by lia.
  repeat (destruct Hc as [-> | Hc]; [now vm_compute|]).
  subst y. now vm_compute.
Qed.

Lemma pretty_N_go_decimal (x : N) (s : string) :
  all_digits s = true ->
  all_digits (pretty_N_go x s) = true
  /\ decimal (pretty_N_go x s)
     = Z.of_N x * 10 ^ Z.of_nat (String.length s) + decimal s.
Proof.
  revert s. induction (N.lt_wf_0 x) as [x _ IH]; intros s Hs.
  assert (x = 0 \/ 0 < x)%N as [-> | Hpos] by lia.
  - rewrite pretty_N_go_0. split; [exact Hs | lia].
  - rewrite pretty_N_go_step by exact Hpos.
    destruct (pretty_N_char_digit (x `mod` 10)%N) as [Hd Hv];
      [now apply N.mod_lt|].
    destruct (IH (x `div` 10)%N (N.div_lt x 10 Hpos eq_refl)
                (String (pretty_N_char (x `mod` 10)) s)) as [IH1 IH2].
    { cbn [all_digits]. now rewrite Hd, Hs. }
    split; [exact IH1|]. rewrite IH2. unfold decimal.
    cbn [decimal_acc String.length].
    rewrite (decimal_acc_shift s (10 * 0 + _)), Hv.
    rewrite Nat2Z.inj_succ, Z.pow_succ_r by lia.
    rewrite N2Z.inj_div, N2Z.inj_mod.
    pose proof (Z.div_mod (Z.of_N x) 10 ltac:(lia)) as Hdm.
    change (Z.of_N 10) with 10. nia.
Qed.

(** The decimal text of a natural number is a non-empty run of digits that
    [parseInt] reads back as the number. *)
Lemma pretty_decimal (z : Z) :
  0 <= z ->
  all_digits (pretty z) = true /\ pretty z <> EmptyString
  /\ decimal (pretty z) = z.
Proof.
  intros Hz.
  assert (Hgo : all_digits (pretty z) = true /\ decimal (pretty z) = z).
  { destruct z as [|p|p]; [now vm_compute | | lia].
    change (pretty (Z.pos p)) with (pretty_N_go (N.pos p) EmptyString).
    destruct (pretty_N_go_decimal (N.pos p) EmptyString eq_refl) as [Hd Hv].
    split; [exact Hd|]. rewrite Hv. cbn. lia. }
  destruct Hgo as [Hd Hv]. repeat split; auto.
  intros Hempty. rewrite Hempty in Hv. cbn in Hv. subst z.
  now vm_compute in Hempty.
Qed.

(** X1. A request for the bytes [a] to [b], written in decimal, is served
    exactly when [a <= b <= size], with status 206, a stream over the offsets
    [a] to [b], and a [Content-Range] that reads [bytes a-b/size]; otherwise it
    is answered 416. *)
Theorem rangeHandler_numbers (pathName : string) (a b totalSize : Z)
  (res : Response) :
  0 <= a -> 0 <= b ->
  rangeHandler pathName ("bytes=" +:+ pretty a +:+ "-" +:+ pretty b)
    totalSize res
  = if (b <? a) || (totalSize <? b)
    then Ok (None, rejected totalSize res)
    else Ok (Some (FileStream pathName
                     (Some {| start_ := Num a; end_ := Num b |})),
             partial a b totalSize res).
Proof.
  intros Ha Hb.
  destruct (pretty_decimal a Ha) as (Hda & Hna & Hva).
  destruct (pretty_decimal b Hb) as (Hdb & Hnb & Hvb).
  rewrite (rangeHandler_two_sided pathName (pretty a) (pretty b) totalSize res
             Hda Hna Hdb Hnb).
  now rewrite Hva, Hvb.
Qed.

Lemma rangeHandler_numbers_witness :
  rangeHandler "/www/app.js" ("bytes=" +:+ pretty 100 +:+ "-" +:+ pretty 199)
    1024 newResponse
  = if (199 <? 100) || (1024 <? 199)
    then Ok (None, rejected 1024 newResponse)
    else Ok (Some (FileStream "/www/app.js"
                     (Some {| start_ := Num 100; end_ := Num 199 |})),
             partial 100 199 1024 newResponse).
Proof.
  apply (rangeHandler_numbers "/www/app.js" 100 199 1024 newResponse); lia.
Defined.

End Decimal.

(** ** The weak validator *)

Section ETag.

Lemma hex_digit_val_digit (d : Z) :
  0 <= d < 16 ->
  hex_digit_val (hex_digit d) = d /\ hex_digit d <> "-"%char.
Proof.
  intros Hd.
  assert (d = 0 \/ d = 1 \/ d = 2 \/ d = 3 \/ d = 4 \/ d = 5 \/ d = 6 \/ d = 7
          \/ d = 8 \/ d = 9 \/ d = 10 \/ d = 11 \/ d = 12 \/ d = 13 \/ d = 14
          \/ d = 15) as Hc by lia.
  repeat (destruct Hc as [-> | Hc]; [now vm_compute|]).
  subst d. now vm_compute.
Qed.

Lemma from_hex_acc_shift (s : string) (acc : Z) :
  from_hex_acc acc s
  = acc * 16 ^ Z.of_nat (String.length s) + from_hex_acc 0 s.
Proof.
  revert acc. induction s as [|c t IH]; intros acc.
  - cbn. lia.
  - cbn [from_hex_acc String.length].
    rewrite (IH (16 * acc + hex_digit_val c)), (IH (16 * 0 + hex_digit_val c)).
    rewrite Nat2Z.inj_succ, Z.pow_succ_r by lia. lia.
Qed.

Lemma hex_go_value (fuel : nat) (n : Z) (acc : string) :
  0 <= n < 16 ^ Z.of_nat fuel ->
  from_hex_acc 0 (hex_go fuel n acc)
  = n * 16 ^ Z.of_nat (String.length acc) + from_hex_acc 0 acc.
Proof.
  revert n acc. induction fuel as [|fuel IH]; intros n acc Hn.
  { cbn in *. replace n with 0 by lia. lia. }
  cbn [hex_go].
  assert (Hmod : 0 <= n mod 16 < 16) by (apply Z.mod_pos_bound; lia).
  destruct (hex_digit_val_digit (n mod 16) Hmod) as [Hv _].
  pose proof (Z.div_mod n 16 ltac:(lia)) as Hdm.
  assert (Hstep : from_hex_acc 0 (String (hex_digit (n mod 16)) acc)
                  = (n mod 16) * 16 ^ Z.of_nat (String.length acc)
                    + from_hex_acc 0 acc).
  { cbn [from_hex_acc]. rewrite from_hex_acc_shift, Hv. lia. }
  destruct (Z.eqb_spec (n / 16) 0) as [Hz|Hnz].
  - rewrite Hstep. replace (n mod 16) with n by lia. reflexivity.
  - rewrite IH.
    + rewrite Hstep. cbn [String.length].
      rewrite Nat2Z.inj_succ, Z.pow_succ_r by lia. nia.
    + split; [apply Z.div_pos; lia|].
      apply Z.div_lt_upper_bound; [lia|].
      rewrite Nat2Z.inj_succ, Z.pow_succ_r in Hn by lia. lia.
Qed.

Lemma hex_go_head (fuel : nat) (n : Z) (acc : string) :
  0 <= n -> head_not_dash (hex_go (S fuel) n acc) = true.
Proof.
  revert n acc. induction fuel as [|fuel IH]; intros n acc Hn.
  - assert (Hmod : 0 <= n mod 16 < 16) by (apply Z.mod_pos_bound; lia).
    destruct (hex_digit_val_digit (n mod 16) Hmod) as [_ Hdash].
    cbn [hex_go].
    assert (Hhead : head_not_dash (String (hex_digit (n mod 16)) acc) = true).
    { cbn. now destruct (Ascii.eqb_spec (hex_digit (n mod 16)) "-"). }
    now destruct (n / 16 =? 0).
  - change (hex_go (S (S fuel)) n acc)
      with (if n / 16 =? 0 then String (hex_digit (n mod 16)) acc
            else hex_go (S fuel) (n / 16) (String (hex_digit (n mod 16)) acc)).
    assert (Hmod : 0 <= n mod 16 < 16) by (apply Z.mod_pos_bound; lia).
    destruct (hex_digit_val_digit (n mod 16) Hmod) as [_ Hdash].
    destruct (n / 16 =? 0).
    + cbn. now destruct (Ascii.eqb_spec (hex_digit (n mod 16)) "-").
    + apply IH. apply Z.div_pos; lia.
Qed.

Lemma log2_fuel (n : Z) : 0 <= n -> n < 16 ^ Z.of_nat (S (Z.to_nat (Z.log2 n))).
Proof.
  intros Hn. destruct (Z.eq_dec n 0) as [->|Hnz]; [now vm_compute|].
  pose proof (Z.log2_spec n ltac:(lia)) as [_ Hlt].
  pose proof (Z.log2_nonneg n) as Hl.
  rewrite Nat2Z.inj_succ, Z2Nat.id by lia.
  eapply Z.lt_le_trans; [exact Hlt|].
  change 16 with (2 ^ 4). rewrite <- Z.pow_mul_r by lia.
  apply Z.pow_le_mono_r; lia.
Qed.

(** [toString16] loses nothing: the number can be read back from its text. *)
Lemma parse16_toString16 (n : Z) : parse16 (toString16 n) = n.
Proof.
  unfold toString16. destruct (Z.ltb_spec n 0) as [Hneg|Hpos].
  - change ("-" +:+ ?s) with (String "-" s). cbn [parse16].
    change (Ascii.eqb "-" "-") with true. cbv iota.
    rewrite hex_go_value by (split; [lia | apply log2_fuel; lia]). cbn. lia.
  - pose proof (hex_go_head (Z.to_nat (Z.log2 n)) n EmptyString Hpos) as Hh.
    pose proof (hex_go_value (S (Z.to_nat (Z.log2 n))) n EmptyString
                  (conj Hpos (log2_fuel n Hpos))) as Hv.
    destruct (hex_go (S (Z.to_nat (Z.log2 n))) n EmptyString) as [|c t];
      [discriminate|].
    cbn [parse16]. cbn [head_not_dash] in Hh.
    apply negb_true_iff in Hh. rewrite Hh, Hv. cbn. lia.
Qed.

Lemma append_inv_head (p a b : string) : p +:+ a = p +:+ b -> a = b.
Proof.
  induction p as [|c p IH]; [trivial|]. rewrite !append_cons.
  intros [= Hab]. now apply IH.
Qed.

Lemma length_append (a b : string) :
  String.length (a +:+ b) = (String.length a + String.length b)%nat.
Proof.
  induction a as [|c a IH]; [reflexivity|].
  rewrite append_cons. cbn [String.length]. now rewrite IH.
Qed.

Lemma append_inv_tail (a b c : string) : a +:+ c = b +:+ c -> a = b.
Proof.
  revert b. induction a as [|x a IH]; intros b Hab.
  - destruct b as [|y b]; [reflexivity|].
    apply (f_equal String.length) in Hab.
    rewrite append_cons in Hab. cbn [String.length] in Hab.
    rewrite !length_append in Hab. cbn in Hab. lia.
  - destruct b as [|y b].
    + apply (f_equal String.length) in Hab.
      rewrite append_cons in Hab. cbn [String.length] in Hab.
      rewrite !length_append in Hab. cbn in Hab. lia.
    + rewrite !append_cons in Hab. injection Hab as -> Hab.
      now rewrite (IH b Hab).
Qed.

Lemma generateETag_eq (s1 s2 : Stats.t) :
  0 <= Stats.size s1 -> 0 <= Stats.size s2 ->
  generateETag s1 = generateETag s2 ->
  Stats.size s1 = Stats.size s2 /\ Stats.mtime s1 = Stats.mtime s2.
Proof.
  intros H1 H2. unfold generateETag. intros Htag.
  apply append_inv_head, append_inv_head in Htag.
  destruct (pretty_decimal _ H1) as (Hd1 & _ & _).
  destruct (pretty_decimal _ H2) as (Hd2 & _ & _).
  pose proof (f_equal span_digits Htag) as Hspan.
  rewrite (span_digits_ahead _ ("-" +:+ _) Hd1 eq_refl),
    (span_digits_ahead _ ("-" +:+ _) Hd2 eq_refl) in Hspan.
  injection Hspan as Hsize Hrest.
  apply (inj pretty) in Hsize.
  apply (append_inv_head EmptyString), append_inv_tail in Hrest.
  split; [exact Hsize|].
  now rewrite <- (parse16_toString16 (Stats.mtime s1)), Hrest,
    parse16_toString16.
Qed.

(** X10. Two states of a file with the same tag have the same size and the
    same modification time: the tag tells apart any two states that differ in
    either. *)
Theorem generateETag_inj (s1 s2 : Stats.t) :
  0 <= Stats.size s1 -> 0 <= Stats.size s2 ->
  generateETag s1 = generateETag s2 ->
  Stats.size s1 = Stats.size s2 /\ Stats.mtime s1 = Stats.mtime s2.
Proof. apply generateETag_eq. Qed.

Lemma generateETag_inj_witness :
  Stats.size exampleFile = Stats.size exampleFile
  /\ Stats.mtime exampleFile = Stats.mtime exampleFile.
Proof.
  apply (generateETag_inj exampleFile exampleFile);
    [vm_compute; discriminate | vm_compute; discriminate | reflexivity].
Defined.

(** X21. Once the file has changed in size or in modification time, the
    tag of its former state no longer revalidates: a request that sends it in
    [If-None-Match] is not answered 304. *)
Theorem respond_changed_file_not_304 `{NodeLib} (this : StaticServer)
  (world : World) (pathName : string) (req : Request) (old new : Stats.t) :
  enableETag this = true ->
  fs_stat world pathName = inr new ->
  0 <= Stats.size old -> 0 <= Stats.size new ->
  Stats.size old <> Stats.size new \/ Stats.mtime old <> Stats.mtime new ->
  headers req !! "if-none-match" = Some (generateETag old) ->
  statusCode (response_of (respond this world pathName req newResponse)) <> 304.
Proof.
  intros Hon Hstat Hold Hnew Hdiff Hnm. unfold respond. rewrite Hstat.
  pose proof (setFreshHeaders_etag this world new newResponse) as Htag.
  rewrite Hon in Htag.
  assert (Hne : generateETag old <> generateETag new).
  { intros Heq. destruct (generateETag_eq old new Hold Hnew Heq). tauto. }
  assert (Hstale : isFresh (headers req)
            (_headers (setFreshHeaders this world new newResponse)) = false).
  { unfold isFresh. rewrite Htag, Hnm.
    destruct (generateETag_cons old) as (c & t & Hct).
    rewrite Hct in *. cbn [truthy negb andb strict_ne].
    destruct (String.eqb_spec (String c t) (generateETag new));
      [contradiction | reflexivity]. }
  rewrite Hstale.
  destruct (respondFile_status this (Some new) pathName req
              (setFreshHeaders this world new newResponse)) as [E|[E|E]];
    rewrite E; try discriminate.
  rewrite (proj1 (setFreshHeaders_status this world new newResponse)).
  discriminate.
Qed.

Lemma respond_changed_file_not_304_witness :
  statusCode
    (response_of
       (respond exampleServer exampleWorld "/www/app.js"
          (request "/app.js"
             [("if-none-match",
               generateETag {| Stats.size := 1000; Stats.mtime := 1530403200000;
                               Stats.isDirectory := false |})])
          newResponse))
  <> 304.
Proof.
  apply (respond_changed_file_not_304 exampleServer exampleWorld "/www/app.js"
           (request "/app.js"
              [("if-none-match",
                generateETag {| Stats.size := 1000;
                                Stats.mtime := 1530403200000;
                                Stats.isDirectory := false |})])
           {| Stats.size := 1000; Stats.mtime := 1530403200000;
              Stats.isDirectory := false |}
           exampleFile);
    try reflexivity; try (vm_compute; discriminate).
  left. vm_compute. discriminate.
Defined.

End ETag.

(** ** Content negotiation *)

Section Negotiation.

Lemma last_char_is_Some (c : ascii) (s : string) :
  exists d, last_char (String c s) = Some d.
Proof.
  revert c. induction s as [|x t IH]; intros c; [now exists c|].
  destruct (IH x) as [d Hd]. exists d. exact Hd.
Qed.

Lemma last_char_cons (c : ascii) (s : string) :
  last_char (String c s)
  = match last_char s with Some d => Some d | None => Some c end.
Proof.
  destruct s as [|x t]; [reflexivity|].
  destruct (last_char_is_Some x t) as [d Hd].
  change (last_char (String c (String x t))) with (last_char (String x t)).
  now rewrite Hd.
Qed.

Lemma head_char_app (w r : string) :
  wordb (head_char w) = true -> head_char (w +:+ r) = head_char w.
Proof. destruct w; [discriminate | reflexivity]. Qed.

Lemma word_here_iff (w : string) (prev : option ascii) (s : string) :
  wordb (head_char w) = true -> wordb (last_char w) = true ->
  word_here w prev s = true <->
  wordb prev = false
  /\ exists post, s = w +:+ post /\ wordb (head_char post) = false.
Proof.
  intros Hhead Hlast. unfold word_here, boundary.
  destruct (last_char w) as [l|] eqn:Hl; [|discriminate].
  split.
  - destruct (strip_prefix w s) as [rest|] eqn:Hs; [|discriminate].
    apply strip_prefix_Some in Hs. subst s.
    rewrite (head_char_app w rest Hhead), Hhead. cbn [wordb] in *. rewrite Hlast.
    destruct (wordb prev), (wordb (head_char rest)) eqn:Hrest;
      try discriminate.
    intros _. split; [reflexivity|]. now exists rest.
  - intros (Hprev & post & -> & Hpost).
    rewrite strip_prefix_app.
    rewrite (head_char_app w post Hhead), Hhead, Hprev, Hpost.
    cbn [wordb] in *. now rewrite Hlast.
Qed.

Lemma words_search_iff (w : string) (prev : option ascii) (s : string) :
  wordb (head_char w) = true -> wordb (last_char w) = true ->
  words_search [w] prev s = true <->
  exists pre post,
    s = pre +:+ w +:+ post
    /\ wordb (match last_char pre with Some c => Some c | None => prev end)
       = false
    /\ wordb (head_char post) = false.
Proof.
  intros Hhead Hlast. split.
  - revert prev. induction s as [|c t IH]; intros prev; cbn [words_search existsb];
      rewrite !orb_false_r.
    + rewrite (word_here_iff w prev _ Hhead Hlast).
      intros (Hprev & post & Hs & Hpost). now exists EmptyString, post.
    + rewrite orb_true_iff, (word_here_iff w prev _ Hhead Hlast).
      intros [(Hprev & post & Hs & Hpost) | Hrec].
      * now exists EmptyString, post.
      * destruct (IH (Some c) Hrec) as (pre & post & -> & Hpre & Hpost).
        exists (String c pre), post. rewrite last_char_cons.
        repeat split; auto. now destruct (last_char pre).
  - intros (pre & post & -> & Hpre & Hpost). revert prev Hpre.
    induction pre as [|c pre IH]; intros prev Hpre.
    + change (EmptyString +:+ w +:+ post) with (w +:+ post).
      assert (Hw : word_here w prev (w +:+ post) = true).
      { apply (word_here_iff w prev _ Hhead Hlast). split; [exact Hpre|].
        now exists post. }
      destruct (w +:+ post); cbn [words_search existsb]; now rewrite Hw.
    + rewrite append_cons. cbn [words_search].
      rewrite (IH (Some c)); [apply orb_true_r|].
      rewrite last_char_cons in Hpre. now destruct (last_char pre).
Qed.

Lemma offers_iff (tok : string) (req : Request) :
  wordb (head_char tok) = true -> wordb (last_char tok) = true ->
  offers tok req = true <-> accepts req tok.
Proof.
  intros Hhead Hlast. unfold offers, accepts, stands_alone, matches_words.
  destruct (headers req !! "accept-encoding") as [ae|].
  - rewrite (words_search_iff tok None ae Hhead Hlast). split.
    + intros (pre & post & -> & Hpre & Hpost). eexists. split; [reflexivity|].
      exists pre, post. repeat split; auto. now destruct (last_char pre).
    + intros (ae' & [= <-] & pre & post & -> & Hpre & Hpost).
      exists pre, post. repeat split; auto. now destruct (last_char pre).
  - split; [discriminate|]. now intros (ae & [=] & _).
Qed.

Lemma stream_not_wrapped (s : Stream) : s <> Gzip s /\ s <> Deflate s.
Proof. induction s as [| s [IH1 IH2] | s [IH1 IH2]]; split; congruence. Qed.

(** X7. The choice of [compressHandler], read off the header text: the stream
    is gzip-wrapped exactly when [Accept-Encoding] holds [gzip] as a word of
    its own, whatever stands around it (a quality value as well), and
    deflate-wrapped exactly when it so holds [deflate] and not [gzip]. *)
Theorem compressHandler_choice (readStream : Stream) (req : Request)
  (res : Response) :
  (fst (compressHandler readStream req res) = Some (Gzip readStream)
   <-> accepts req "gzip")
  /\ (fst (compressHandler readStream req res) = Some (Deflate readStream)
      <-> accepts req "deflate" /\ ~ accepts req "gzip").
Proof.
  destruct (stream_not_wrapped readStream) as [Hg Hd].
  rewrite compressHandler_negotiates.
  rewrite <- !offers_iff by reflexivity.
  destruct (offers "gzip" req), (offers "deflate" req); cbn [fst];
    split; split; intros Hyp; try reflexivity; try discriminate;
    try (injection Hyp as Hyp; congruence);
    try (exfalso; tauto);
    (split; congruence).
Qed.

End Negotiation.


(** * Byte offsets in double precision *)

(** The numbers of JavaScript are doubles.  [F64] follows [getRange] with
    the values [parseInt] and the subtraction really return: an integer is
    held exactly up to 2^53 in absolute value, beyond that it is rounded to the
    nearest integer with 53 significant bits (ties to the even one), and from
    2^1024 on it is an infinity.  The digits are read exactly, whatever their
    number. *)
Module F64.

Inductive number : Type :=
| NaN
| Infinity (negative : bool)
| Num (z : Z).

Definition isNaN (x : number) : bool :=
  match x with NaN => true | _ => false end.

(** The integer with 53 significant bits nearest to [z], for [0 <= z]. *)
Definition nearest (z : Z) : Z :=
  if z <=? 2 ^ 53 then z
  else
    let e := Z.log2 z - 52 in
    let q := z / 2 ^ e in
    let r := z mod 2 ^ e in
    let half := 2 ^ (e - 1) in
    (if (r <? half) || ((r =? half) && Z.even q) then q else q + 1) * 2 ^ e.

(** The double that holds the integer [z]. *)
Definition of_Z (z : Z) : number :=
  let m := nearest (Z.abs z) in
  if 2 ^ 1024 <=? m then Infinity (z <? 0) else Num (Z.sgn z * m).

(** [a - b] *)
Definition sub (a b : number) : number :=
  match a, b with
  | Num x, Num y => of_Z (x - y)
  | NaN, _ | _, NaN => NaN
  | Infinity s, Infinity t => if Bool.eqb s t then NaN else Infinity s
  | Infinity s, Num _ => Infinity s
  | Num _, Infinity t => Infinity (negb t)
  end.

(** [parseInt(s)] on the text captured by a group of decimal digits. *)
Definition parseInt (s : string) : number :=
  match fst (span_digits s) with
  | EmptyString => NaN
  | d => of_Z (decimal_acc 0 d)
  end.

(** [{ start, end }] *)
Record Range : Type := {
  start_ : number;
  end_ : number
}.

(** [totalSize] is the size [fs.stat] reported, a double that holds an
    integer. *)
Definition getRange (rangeText : string) (totalSize : Z) : Result Range :=
  match range_regex_match rangeText with
  | None => Throw TypeError
  | Some (g1, g2) =>
      let start := parseInt g1 in
      let end' := parseInt g2 in
      if isNaN start && negb (isNaN end') then
        Ok {| start_ := sub (Num totalSize) end';
              end_ := sub (Num totalSize) (Num 1) |}
      else if negb (isNaN start) && isNaN end' then
        Ok {| start_ := start; end_ := sub (Num totalSize) (Num 1) |}
      else
        Ok {| start_ := start; end_ := end' |}
  end.

(** A number of the exact reading, as a double. *)
Definition of_number (x : JS.number) : number :=
  match x with
  | JS.NaN => NaN
  | JS.Num z => Num z
  end.

End F64.

Section DoublePrecision.

Lemma of_Z_exact (z : Z) : Z.abs z <= 2 ^ 53 -> F64.of_Z z = F64.Num z.
Proof.
  intros Hz. unfold F64.of_Z, F64.nearest.
  destruct (Z.leb_spec (Z.abs z) (2 ^ 53)) as [_|Hgt]; [|lia].
  assert (Hlt : 2 ^ 53 < 2 ^ 1024) by (apply Z.pow_lt_mono_r; lia).
  destruct (Z.leb_spec (2 ^ 1024) (Z.abs z)) as [Hbig|_]; [lia|].
  f_equal. destruct z; cbn; lia.
Qed.


(** Below 2^53 the exact reading of [parseInt] is the double. *)
Lemma parseInt_agrees (s : string) :
  decimal (fst (span_digits s)) <= 2 ^ 53 ->
  F64.parseInt s = F64.of_number (JS.parseInt s).
Proof.
  intros Hle. unfold F64.parseInt, JS.parseInt.
  destruct (span_digits_spec s) as (_ & Hd & _).
  destruct (fst (span_digits s)) as [|c t] eqn:E; [reflexivity|].
  cbn [F64.of_number]. apply of_Z_exact.
  pose proof (decimal_nonneg _ Hd). unfold decimal in *. lia.
Qed.




End DoublePrecision.

(** * The answer to a missing path, under the listener *)

Section NotFound.

(** C8, as the code has it.  When the path resolved from the rewritten URL
    lies outside the fallback and does not stat, the server answers with
    status 400, [Content-Type: text/html] and an HTML text that holds the
    rewritten URL, unescaped: the URL of the request when that URL does not
    hold [static] at an offset above zero, and the URL cut to start at
    [static] when it does. *)
Theorem start_not_found_is_400 `{NodeLib} (this : StaticServer)
  (world : World) (req : Request) (err : SysError) :
  isFallbackPath
    (path_join (root this) (path_normalize (url (rewriteUrl req)))) = false ->
  fs_stat world (path_join (root this) (path_normalize (url (rewriteUrl req))))
  = inl err ->
  exists answer html,
    start this world req = Done answer
    /\ statusCode answer = 400
    /\ _headers answer !! "content-type" = Some "text/html"
    /\ body answer = Ended (Some (Text html))
    /\ contains html (url (rewriteUrl req))
    /\ (indexOf (url req) "static" <= 0 -> contains html (url req))
    /\ (0 < indexOf (url req) "static" ->
        contains html
          (substring_from (url req) (indexOf (url req) "static"))).
Proof.
  intros Hfb Hstat. rewrite (start_not_found this world req err Hfb Hstat).
  destruct (rewriteUrl_url req) as [Hsame Hcut].
  eexists. eexists. split; [reflexivity|]. split; [reflexivity|].
  split; [apply lookup_insert_eq|]. split; [reflexivity|].
  split; [apply contains_middle|]. split.
  - intros Hle. rewrite <- (Hsame Hle). apply contains_middle.
  - intros Hpos. rewrite <- (Hcut Hpos). apply contains_middle.
Qed.

Lemma start_not_found_is_400_witness :
  exists answer html,
    start exampleServer exampleWorld (request "/foo/" []) = Done answer
    /\ statusCode answer = 400
    /\ _headers answer !! "content-type" = Some "text/html"
    /\ body answer = Ended (Some (Text html))
    /\ contains html (url (rewriteUrl (request "/foo/" [])))
    /\ (indexOf (url (request "/foo/" [])) "static" <= 0 ->
        contains html (url (request "/foo/" [])))
    /\ (0 < indexOf (url (request "/foo/" [])) "static" ->
        contains html
          (substring_from (url (request "/foo/" []))
             (indexOf (url (request "/foo/" [])) "static"))).
Proof.
  apply (start_not_found_is_400 exampleServer exampleWorld
           (request "/foo/" []) (ErrnoException "ENOENT"));
    vm_compute; reflexivity.
Defined.

(** C8, as it is worded.  The URL [/x/static/nope] holds [static] at offset
    3 and is rewritten to [static/nope]; the path [/www/static/nope] is
    outside the fallback and does not stat; the answer is 400 with a text that
    names [static/nope] and does not hold the requested URL. *)
Lemma not_found_after_static_rewrite :
  indexOf "/x/static/nope" "static" = 3
  /\ isFallbackPath "/www/static/nope" = false
  /\ fs_stat exampleWorld "/www/static/nope" = inl (ErrnoException "ENOENT")
  /\ statusCode
       (response_of
          (start exampleServer exampleWorld (request "/x/static/nope" [])))
     = 400
  /\ body
       (response_of
          (start exampleServer exampleWorld (request "/x/static/nope" [])))
     = Ended (Some (Text
         "<h1>Not Found</h1><p>The requested URL static/nope was not found on this server.</p>"))
  /\ ~ contains
        "<h1>Not Found</h1><p>The requested URL static/nope was not found on this server.</p>"
        "/x/static/nope".
Proof.
  repeat (split; [vm_compute; reflexivity|]).
  intros Hin. apply contains_indexOf in Hin.
  assert (E : indexOf
    "<h1>Not Found</h1><p>The requested URL static/nope was not found on this server.</p>"
    "/x/static/nope" = -1) by (vm_compute; reflexivity).
  rewrite E in Hin. lia.
Qed.

End NotFound.
